(** * Streaming decoder and Claude request conversion: a shallow embedding

    The development follows four source files:
    - [src/api/stream_parser.js]: [LineBuffer], the object pools and
      [parseAndEmitStreamChunk];
    - [src/utils/converters/claude.js]: model detection and
      [generateClaudeRequestBody];
    - [src/utils/utils.js]: tool names, model mapping, system texts;
    - [src/utils/format/index.js]: the names re-exported from the format
      modules, whose bodies are not among the sources.

    JavaScript strings are modelled by [string]; the code only compares
    characters with the line feed and with ASCII literals. *)

From Stdlib Require Import String Ascii List ZArith Lia Bool Arith.
Import ListNotations.

Local Open Scope string_scope.
Local Open Scope list_scope.

(* ================================================================== *)
(** * Part I: definitions *)
(* ================================================================== *)

(** ** String primitives of the host language *)

Module JsString.

(** The line feed, ['\n']. *)
Definition LF : ascii := "010"%char.

(** [s.indexOf(c, start)] for a one-character needle: the least index
    [i >= start] with [s[i] = c]; [None] stands for [-1]. *)
Fixpoint indexOf (s : string) (c : ascii) (start : nat) : option nat :=
  match s with
  | EmptyString => None
  | String a s' =>
      match start with
      | O => if Ascii.eqb a c then Some O else option_map S (indexOf s' c O)
      | S k => option_map S (indexOf s' c k)
      end
  end.

(** [s.slice(start, end)] for [start <= end]. *)
Definition slice (s : string) (start end_ : nat) : string :=
  substring start (end_ - start) s.

(** [s.slice(start)]. *)
Definition sliceFrom (s : string) (start : nat) : string :=
  substring start (String.length s - start) s.

(** [s.startsWith(p)]. *)
Definition startsWith (s p : string) : bool := prefix p s.

End JsString.

(** ** [LineBuffer] (stream_parser.js, lines 13-40) *)

Module LineBuffer.
Import JsString.

(** The two fields of a [LineBuffer] instance. [lines] is the array that
    [append] hands back: it is the same array at every call, emptied on
    entry. *)
Record t : Type := mk { buffer : string; lines : list string }.

(** [constructor()]. *)
Definition new : t := mk "" [].

(** [clear()]. *)
Definition clear (_ : t) : t := mk "" [].

(** The [while] loop of [append]: [start] and [lines] are the loop
    variables, [fuel] bounds the number of iterations. *)
Fixpoint scan (fuel : nat) (buf : string) (start : nat) (acc : list string)
  : nat * list string :=
  match fuel with
  | O => (start, acc)
  | S fuel' =>
      match indexOf buf LF start with
      | Some end_ => scan fuel' buf (end_ + 1) (acc ++ [slice buf start end_])
      | None => (start, acc)
      end
  end.

(** [append(chunk)]: each iteration consumes at least one character of the
    buffer, so [length buffer + 1] iterations are enough (see
    [scan_fuel_enough]). The result is the returned array together with
    the instance after the call. *)
Definition append (lb : t) (chunk : string) : list string * t :=
  let buf := (buffer lb ++ chunk)%string in
  let '(start, ls) := scan (S (String.length buf)) buf 0 [] in
  let rest := if (start <? String.length buf)%nat then sliceFrom buf start else "" in
  (ls, mk rest ls).

(** Feeding a sequence of chunks, one [append] per chunk; the lines of
    all calls in the order they were returned. *)
Fixpoint feed (lb : t) (chunks : list string) : list string * t :=
  match chunks with
  | [] => ([], lb)
  | c :: cs =>
      let '(ls, lb1) := append lb c in
      let '(ls', lb2) := feed lb1 cs in
      (ls ++ ls', lb2)
  end.

(** The chunks of a stream put back together. *)
Definition whole (chunks : list string) : string :=
  fold_right String.append "" chunks.

(** A text cut after every character. *)
Fixpoint characters (s : string) : list string :=
  match s with
  | EmptyString => []
  | String c s' => String c "" :: characters s'
  end.

(** A line followed by its terminator, and a list of terminated lines. *)
Definition terminated (ls : list string) : string :=
  fold_right (fun l acc => (l ++ String LF acc)%string) "" ls.

(** [s] holds no line feed. *)
Definition noLF (s : string) : Prop := indexOf s LF 0 = None.

(** Reference splitting, by recursion on the text: the lines that end in
    a line feed, and the unterminated tail. Used to state what [append]
    computes; the source has no such function. *)
Fixpoint splitLines (s : string) : list string * string :=
  match s with
  | EmptyString => ([], "")
  | String a s' =>
      let '(ls, r) := splitLines s' in
      if Ascii.eqb a LF then ("" :: ls, r)
      else match ls with
           | [] => ([], String a r)
           | l :: ls' => (String a l :: ls', r)
           end
  end.

End LineBuffer.

(** ** Counting line feeds *)

Module Text.

(** The number of line feeds in [s]. *)
Fixpoint countLF (s : string) : nat :=
  match s with
  | EmptyString => 0
  | String c s' =>
      (if Ascii.eqb c JsString.LF then 1 else 0) + countLF s'
  end.

End Text.

(** ** Values of the host language

    What [JSON.parse] returns, and what reading a property of it gives.
    Numbers are modelled by integers: the decoder tests numbers for
    truthiness and compares lengths, nothing else. An object is the list of
    its bindings, one per key. *)

Module Js.

#[local] Unset Elimination Schemes.
Inductive value : Type :=
| VUndefined
| VNull
| VBool (b : bool)
| VNum (n : Z)
| VStr (s : string)
| VArr (items : list value)
| VObj (fields : list (string * value)).
#[local] Set Elimination Schemes.

(** ToBoolean. *)
Definition truthy (v : value) : bool :=
  match v with
  | VUndefined | VNull => false
  | VBool b => b
  | VNum n => negb (n =? 0)%Z
  | VStr s => negb (s =? "")%string
  | VArr _ | VObj _ => true
  end.

(** [a || b]. *)
Definition or (a b : value) : value := if truthy a then a else b.

Fixpoint lookup (fields : list (string * value)) (k : string) : value :=
  match fields with
  | [] => VUndefined
  | (k', v) :: rest => if (k' =? k)%string then v else lookup rest k
  end.

(** [v.k], for the property names the decoder reads ([k] is never an
    array index). [None] is the TypeError raised on [null] and
    [undefined]. Strings and arrays have [length]; no other property the
    decoder reads exists on a primitive, an array or a prototype. *)
Definition get (v : value) (k : string) : option value :=
  match v with
  | VUndefined | VNull => None
  | VObj fields => Some (lookup fields k)
  | VArr items =>
      Some (if (k =? "length")%string then VNum (Z.of_nat (List.length items))
            else VUndefined)
  | VStr s =>
      Some (if (k =? "length")%string then VNum (Z.of_nat (String.length s))
            else VUndefined)
  | VBool _ | VNum _ => Some VUndefined
  end.

(** [v?.k]. *)
Definition getOpt (v : value) (k : string) : value :=
  match get v k with
  | Some x => x
  | None => VUndefined
  end.

(** [v?.[0]]. *)
Definition firstOpt (v : value) : value :=
  match v with
  | VArr (x :: _) => x
  | VObj fields => lookup fields "0"
  | VStr (String c _) => VStr (String c "")
  | _ => VUndefined
  end.

(** The values a [for ... of] loop visits; [None] is the TypeError for a
    value that is not iterable. A string is visited character by
    character. *)
Fixpoint chars (s : string) : list value :=
  match s with
  | EmptyString => []
  | String c s' => VStr (String c "") :: chars s'
  end.

Definition iterate (v : value) : option (list value) :=
  match v with
  | VArr items => Some items
  | VStr s => Some (chars s)
  | _ => None
  end.

End Js.

(** ** The decoder's record interpretation (stream_parser.js, lines 60-148) *)

Module StreamParser.
Import JsString Js.

(** What the module imports and the built-ins it calls. The bodies are
    not among the sources; they are parameters of the model. *)
Class Host : Type := {
  (** [constants/index.js] *)
  MIN_SIGNATURE_LENGTH : Z;
  (** [JSON.parse]; [None] when it raises a SyntaxError. *)
  JSON_parse : string -> option value;
  (** [JSON.stringify]. *)
  JSON_stringify : value -> value;
  (** [idGenerator.js]: the identifier handed out at the [n]-th call. *)
  generateToolCallId : nat -> value;
  (** [toolNameCache.js]: [getOriginalToolName(sessionId, model, name)]. *)
  getOriginalToolName : value -> value -> value -> value;
  (** ToNumber on strings, arrays and objects (the host's conversion of
      non-numeric values, reached only when a signature is an object
      with a [length] field of its own); [None] is NaN. *)
  ToNumberOther : value -> option Z
}.

Definition DATA_PREFIX : string := "data: ".
Definition DATA_PREFIX_LEN : nat := String.length DATA_PREFIX.

(** A pooled tool-call object: [{ id, type: 'function', function: { name,
    arguments } }], with [thoughtSignature] when one was set
    ([VUndefined] otherwise). [type] never changes and is left out. *)
Record toolCall : Type := mkToolCall {
  tc_id : value;
  tc_name : value;
  tc_arguments : value;
  tc_thoughtSignature : value
}.

(** The objects handed to [callback]. *)
Inductive event : Type :=
| Reasoning (reasoning_content thoughtSignature : value)
| TextDelta (content : value)
| ToolCalls (tool_calls : list toolCall)
| Usage (prompt_tokens completion_tokens total_tokens : value).

(** The [state] argument. *)
Record state : Type := mkState {
  reasoningSignature : value;
  toolCalls : list toolCall;
  sessionId : value;
  model : value
}.

(** Everything a call can read or change: the caller's [state], the
    module's [toolCallPool] (top of the stack first), the number of
    identifiers generated so far, the calls made to [cacheSignature]
    (key, signature) and the events passed to [callback], both oldest
    first. *)
Record world : Type := mkWorld {
  st : state;
  toolCallPool : list toolCall;
  idsIssued : nat;
  cacheCalls : list (value * value);
  emitted : list event
}.

(** *** Statements: state passing with exceptions *)

Inductive completion (A : Type) : Type :=
| Normal (a : A)
| Thrown.
Arguments Normal {A} a.
Arguments Thrown {A}.

Definition M (A : Type) : Type := world -> completion A * world.

Definition ret {A} (a : A) : M A := fun w => (Normal a, w).
Definition throw {A} : M A := fun w => (Thrown, w).
Definition bind {A B} (m : M A) (k : A -> M B) : M B :=
  fun w =>
    match m w with
    | (Normal a, w') => k a w'
    | (Thrown, w') => (Thrown, w')
    end.

Notation "x <- m ;; k" := (bind m (fun x => k))
  (at level 61, m at next level, right associativity).
Notation "m ;;; k" := (bind m (fun _ => k))
  (at level 61, right associativity).

(** [try { m } catch { }] *)
Definition tryCatch (m : M unit) : M unit :=
  fun w =>
    match m w with
    | (Normal a, w') => (Normal a, w')
    | (Thrown, w') => (Normal tt, w')
    end.

Definition when (b : bool) (m : M unit) : M unit := if b then m else ret tt.

(** [v.k], raising on [null] and [undefined]. *)
Definition getM (v : value) (k : string) : M value :=
  match get v k with
  | Some x => ret x
  | None => throw
  end.

Fixpoint forEach {A} (body : A -> M unit) (items : list A) : M unit :=
  match items with
  | [] => ret tt
  | x :: rest => body x ;;; forEach body rest
  end.

Definition getState : M state := fun w => (Normal (st w), w).

Definition setReasoningSignature (sig : value) : M unit :=
  fun w =>
    let s := st w in
    (Normal tt,
     mkWorld (mkState sig (toolCalls s) (sessionId s) (model s))
             (toolCallPool w) (idsIssued w) (cacheCalls w) (emitted w)).

Definition setToolCalls (tcs : list toolCall) : M unit :=
  fun w =>
    let s := st w in
    (Normal tt,
     mkWorld (mkState (reasoningSignature s) tcs (sessionId s) (model s))
             (toolCallPool w) (idsIssued w) (cacheCalls w) (emitted w)).

(** [callback(e)]: the sink is the list of the events it was given. (A
    sink that raised would be caught by the [try] of the caller like
    any other exception.) *)
Definition callback (e : event) : M unit :=
  fun w =>
    (Normal tt,
     mkWorld (st w) (toolCallPool w) (idsIssued w) (cacheCalls w)
             (emitted w ++ [e])).

(** [cacheSignature(key, signature)] *)
Definition cacheSignature (key sig : value) : M unit :=
  fun w =>
    (Normal tt,
     mkWorld (st w) (toolCallPool w) (idsIssued w)
             (cacheCalls w ++ [(key, sig)]) (emitted w)).

(** [getToolCallObject()]: [toolCallPool.pop() || { id: '', ... }]. *)
Definition getToolCallObject : M toolCall :=
  fun w =>
    match toolCallPool w with
    | tc :: pool' =>
        (Normal tc,
         mkWorld (st w) pool' (idsIssued w) (cacheCalls w) (emitted w))
    | [] => (Normal (mkToolCall (VStr "") (VStr "") (VStr "") VUndefined), w)
    end.

(** The world once [state.reasoningSignature = sig] has run, and once
    [callback(e)] has. *)
Definition withReasoningSignature (sig : value) (w : world) : world :=
  snd (setReasoningSignature sig w).
Definition withEvent (e : event) (w : world) : world :=
  snd (callback e w).

(** [line.slice(DATA_PREFIX_LEN)] *)
Definition payload (line : string) : string := sliceFrom line DATA_PREFIX_LEN.

Section WithHost.
Context {host : Host}.

(** [generateToolCallId()] *)
Definition freshToolCallId : M value :=
  fun w =>
    (Normal (generateToolCallId (idsIssued w)),
     mkWorld (st w) (toolCallPool w) (S (idsIssued w)) (cacheCalls w)
             (emitted w)).

(** ToNumber. *)
Definition ToNumber (v : value) : option Z :=
  match v with
  | VUndefined => None
  | VNull => Some 0%Z
  | VBool b => Some (if b then 1 else 0)%Z
  | VNum n => Some n
  | VStr _ | VArr _ | VObj _ => ToNumberOther v
  end.

(** [v >= n] for a number [n]. *)
Definition geNum (v : value) (n : Z) : bool :=
  match ToNumber v with
  | Some x => (n <=? x)%Z
  | None => false
  end.

(** [sig && sig.length >= MIN_SIGNATURE_LENGTH] *)
Definition validSignature (sig : value) : bool :=
  truthy sig && geNum (getOpt sig "length") MIN_SIGNATURE_LENGTH.

(** Lines 79-83 of [convertToToolCall]: the name given to the tool
    call, the original name when the reverse lookup knows one. *)
Definition restoredName (sessionId model fname : value) : value :=
  if truthy sessionId && truthy model then
    let original := getOriginalToolName sessionId model fname in
    if truthy original then original else fname
  else fname.

(** [convertToToolCall(functionCall, sessionId, model)], lines 76-87;
    [functionCall] is truthy at the one call site. The pooled object
    keeps whatever [thoughtSignature] it had. *)
Definition convertToToolCall (functionCall sessionId model : value)
  : M toolCall :=
  toolCall <- getToolCallObject ;;
  fid <- getM functionCall "id" ;;
  id <- (if truthy fid then ret fid else freshToolCallId) ;;
  fname <- getM functionCall "name" ;;
  let name := restoredName sessionId model fname in
  args <- getM functionCall "args" ;;
  ret (mkToolCall id name (JSON_stringify args)
                  (tc_thoughtSignature toolCall)).

(** The body of [for (const part of parts)], lines 101-124. *)
Definition handlePart (part : value) : M unit :=
  thought <- getM part "thought" ;;
  match thought with
  | VBool true =>
      sig <- getM part "thoughtSignature" ;;
      when (validSignature sig) (setReasoningSignature sig) ;;;
      text <- getM part "text" ;;
      s <- getState ;;
      callback (Reasoning (or text (VStr ""))
                          (or sig (or (reasoningSignature s) VNull)))
  | _ =>
      text <- getM part "text" ;;
      match text with
      | VUndefined =>
          functionCall <- getM part "functionCall" ;;
          if truthy functionCall then
            s <- getState ;;
            toolCall <- convertToToolCall functionCall (sessionId s) (model s) ;;
            sig <- getM part "thoughtSignature" ;;
            toolCall' <-
              (if validSignature sig then
                 cacheSignature (tc_id toolCall) sig ;;;
                 ret (mkToolCall (tc_id toolCall) (tc_name toolCall)
                                 (tc_arguments toolCall) sig)
               else ret toolCall) ;;
            s' <- getState ;;
            setToolCalls (toolCalls s' ++ [toolCall'])
          else ret tt
      | _ => callback (TextDelta text)
      end
  end.

(** [response?.candidates?.[0]] *)
Definition candidate0 (response : value) : value :=
  firstOpt (getOpt response "candidates").

(** [data.response?.candidates?.[0]?.content?.parts], given
    [data.response]. *)
Definition partsOf (response : value) : value :=
  getOpt (getOpt (candidate0 response) "content") "parts".

(** [data.response?.candidates?.[0]?.finishReason] *)
Definition finishReasonOf (response : value) : value :=
  getOpt (candidate0 response) "finishReason".

(** Lines 99-126: [if (parts) { for (const part of parts) ... }]. *)
Definition emitParts (response : value) : M unit :=
  let parts := partsOf response in
  if truthy parts then
    match iterate parts with
    | Some items => forEach handlePart items
    | None => throw
    end
  else ret tt.

(** The object built at lines 135-142, for a truthy [usage]. *)
Definition usageEvent (usage : value) : event :=
  Usage (or (getOpt usage "promptTokenCount") (VNum 0))
        (or (getOpt usage "candidatesTokenCount") (VNum 0))
        (or (getOpt usage "totalTokenCount") (VNum 0)).

(** Lines 129-143, the body of [if (...finishReason)]. *)
Definition finishTurn (response : value) : M unit :=
  s <- getState ;;
  (match toolCalls s with
   | [] => ret tt
   | _ :: _ => callback (ToolCalls (toolCalls s)) ;;; setToolCalls []
   end) ;;;
  let usage := getOpt response "usageMetadata" in
  when (truthy usage) (callback (usageEvent usage)).

(** The body of the [try] block after [JSON.parse], lines 97-144. *)
Definition processRecord (data : value) : M unit :=
  response <- getM data "response" ;;
  emitParts response ;;;
  when (truthy (finishReasonOf response)) (finishTurn response).

(** [parseAndEmitStreamChunk(line, state, callback)], lines 92-148. *)
Definition parseAndEmitStreamChunk (line : string) : M unit :=
  if negb (startsWith line DATA_PREFIX) then ret tt
  else
    tryCatch
      (match JSON_parse (payload line) with
       | Some data => processRecord data
       | None => throw
       end).

(** One call per line, as the caller of the decoder does for the lines
    a [LineBuffer] returns. *)
Definition parseLines (lines : list string) : M unit :=
  forEach parseAndEmitStreamChunk lines.

(** *** Vocabulary of the statements *)

(** [line] carries the prefix and its payload parses to a record whose
    [response] field is [response]. *)
Definition dataLine (line : string) (response : value) : Prop :=
  startsWith line DATA_PREFIX = true
  /\ exists data,
       JSON_parse (payload line) = Some data
       /\ get data "response" = Some response.

(** A part the loop treats as a function invocation: not flagged as
    thought, without [text], with a [functionCall]. *)
Definition invocationPart (part : value) : Prop :=
  getOpt part "thought" <> VBool true
  /\ getOpt part "text" = VUndefined
  /\ truthy (getOpt part "functionCall") = true.

(** The parts array of a record, empty when there is none. *)
Definition partsList (response : value) : list value :=
  match partsOf response with
  | VArr items => items
  | _ => []
  end.

(** A record with no parts, or whose parts are all function
    invocations. *)
Definition invocationsOnly (response : value) : Prop :=
  (truthy (partsOf response) = false
   \/ exists items, partsOf response = VArr items)
  /\ Forall invocationPart (partsList response).

(** The tool call [tc] is the conversion of the invocation part
    [part] for a stream with this [sessionId] and [model]. *)
Definition converted (sessionId model part : value) (tc : toolCall) : Prop :=
  let functionCall := getOpt part "functionCall" in
  tc_name tc = restoredName sessionId model (getOpt functionCall "name")
  /\ tc_arguments tc = JSON_stringify (getOpt functionCall "args")
  /\ (truthy (getOpt functionCall "id") = true ->
      tc_id tc = getOpt functionCall "id").

(** A data line whose record holds only invocations and does not
    finish the turn. *)
Definition pendingLine (lr : string * value) : Prop :=
  dataLine (fst lr) (snd lr)
  /\ invocationsOnly (snd lr)
  /\ truthy (finishReasonOf (snd lr)) = false.

(** The usage summary a finishing record gives rise to. *)
Definition usageEvents (response : value) : list event :=
  let usage := getOpt response "usageMetadata" in
  if truthy usage then [usageEvent usage] else [].

End WithHost.

(** The signature a tool-call object taken from the pool comes with. *)
Definition pooledSignature (w : world) : value :=
  match toolCallPool w with
  | tc :: _ => tc_thoughtSignature tc
  | [] => VUndefined
  end.

(** The batch a finishing record emits: the pending tool calls, if any. *)
Definition batchEvents (w : world) : list event :=
  match toolCalls (st w) with
  | [] => []
  | _ :: _ => [ToolCalls (toolCalls (st w))]
  end.

(** The events a run has added to those of [w]. *)
Definition emittedSince (w w' : world) : list event :=
  skipn (List.length (emitted w)) (emitted w').

Definition isReasoning (e : event) : bool :=
  match e with Reasoning _ _ => true | _ => false end.
Definition isToolCalls (e : event) : bool :=
  match e with ToolCalls _ => true | _ => false end.
Definition isUsage (e : event) : bool :=
  match e with Usage _ _ _ => true | _ => false end.

End StreamParser.

(** ** A small host and sample records

    A host with a threshold of four characters, whose [JSON.parse] knows
    three payloads by name and whose name lookup knows no name; used to
    run the decoder on concrete lines. *)

Module Sample.
Import Js StreamParser.

Definition part_thought (text : string) (sig : value) : value :=
  VObj [("thought", VBool true); ("text", VStr text);
        ("thoughtSignature", sig)].

Definition part_call (id name : string) : value :=
  VObj [("functionCall",
         VObj [("id", VStr id); ("name", VStr name); ("args", VObj [])])].

Definition record (parts : list value) (candidateFields : list (string * value))
  : value :=
  VObj [("response",
         VObj [("candidates",
                VArr [VObj (("content", VObj [("parts", VArr parts)])
                            :: candidateFields)])])].

Definition threeThoughts : value :=
  record [part_thought "a" (VStr "sig-0001");
          part_thought "b" VUndefined;
          part_thought "c" VUndefined] [].

Definition twoCalls : value :=
  record [part_call "t1" "search"; part_call "t2" "fetch"]
         [("finishReason", VStr "STOP")].

Definition shortSignature : value :=
  record [part_thought "x" (VStr "abc")] [].

#[local] Instance host : Host := {|
  MIN_SIGNATURE_LENGTH := 4;
  JSON_parse := fun s =>
    if (s =? "three-thoughts")%string then Some threeThoughts
    else if (s =? "two-calls")%string then Some twoCalls
    else if (s =? "short-signature")%string then Some shortSignature
    else None;
  JSON_stringify := fun v => match v with VObj [] => VStr "{}" | _ => VUndefined end;
  generateToolCallId := fun n => VStr "call";
  getOriginalToolName := fun _ _ _ => VUndefined;
  ToNumberOther := fun _ => None
|}.

(** The state of a stream that has seen nothing yet. *)
Definition start : world :=
  mkWorld (mkState VNull [] (VStr "session") (VStr "model")) [] 0 [] [].

End Sample.

(** ** The Claude request converter (claude.js, lines 34-58 and 158-198)

    Of [generateClaudeRequestBody] the model keeps what decides the
    [contents] of the request: the model family, the recovery step, the
    loop over the messages and the final filter. System instruction,
    generation parameters and tools are left out.

    Content arrays are mutable objects: the loop pushes a placeholder onto
    the array that [convertContentToParts] returns. They live in a store;
    a message refers to its array by location. Messages and blocks are
    only read by the source and are plain values. *)

Module ClaudeConverter.
Import JsString.

(** *** Data *)

(** Modelled from the spec: the blocks of a message, which only the
    absent format modules inspect. Spec, section 3: [Text],
    [Thinking] with an optional signature, [ToolInvocation] and
    [ToolResult]. *)
Inductive ContentBlock : Type :=
| Text (text : string)
| Thinking (text : string) (signature : option string) (isThought : bool)
| ToolInvocation (id name : string) (arguments : list (string * Js.value))
| ToolResult (toolInvocationId : string) (content : string).

Definition loc : Type := nat.

(** [msg.content]: a plain string, or an array of blocks. *)
Inductive content : Type :=
| StringContent (s : string)
| BlockArray (ref : loc).

Record message : Type := mkMessage { role : string; msgContent : content }.

(** An entry of [googleRequest.contents]. *)
Record googleContent : Type := mkContent { gc_role : string; gc_parts : loc }.

(** *** The store of arrays *)

Definition heap : Type := list (list ContentBlock).

Definition read (h : heap) (l : loc) : list ContentBlock := nth l h [].

Fixpoint update (l : loc) (a : list ContentBlock) (h : heap) : heap :=
  match h, l with
  | [], _ => []
  | _ :: rest, O => a :: rest
  | x :: rest, S l' => x :: update l' a rest
  end.

Definition H (A : Type) : Type := heap -> A * heap.

Definition ret {A} (a : A) : H A := fun h => (a, h).
Definition bind {A B} (m : H A) (k : A -> H B) : H B :=
  fun h => let '(a, h') := m h in k a h'.

Notation "x <- m ;; k" := (bind m (fun x => k))
  (at level 61, m at next level, right associativity).
Notation "m ;;; k" := (bind m (fun _ => k))
  (at level 61, right associativity).

(** A new array. *)
Definition alloc (a : list ContentBlock) : H loc :=
  fun h => (List.length h, h ++ [a]).

(** [arr.length] and [arr.push(b)]. *)
Definition lengthOf (l : loc) : H nat := fun h => (List.length (read h l), h).
Definition push (l : loc) (b : ContentBlock) : H unit :=
  fun h => (tt, update l (read h l ++ [b]) h).

Fixpoint mapM {A B} (f : A -> H B) (xs : list A) : H (list B) :=
  match xs with
  | [] => ret []
  | x :: rest => y <- f x ;; ys <- mapM f rest ;; ret (y :: ys)
  end.

(** [h'] is [h] with new arrays after it: every array of [h] is in
    [h'], at its place, with the blocks it had. *)
Definition extends (h h' : heap) : Prop := exists fresh, h' = h ++ fresh.

(** *** Model detection (lines 34-58) *)

Inductive family : Type := Claude | Gemini | Unknown.

Definition lowerChar (c : ascii) : ascii :=
  let n := nat_of_ascii c in
  if (65 <=? n)%nat && (n <=? 90)%nat then ascii_of_nat (n + 32) else c.

(** [s.toLowerCase()] on ASCII text. *)
Fixpoint toLowerCase (s : string) : string :=
  match s with
  | EmptyString => EmptyString
  | String c s' => String (lowerChar c) (toLowerCase s')
  end.

(** [s.includes(sub)]. *)
Fixpoint includes (s sub : string) : bool :=
  prefix sub s
  || match s with
     | EmptyString => false
     | String _ s' => includes s' sub
     end.

Definition getModelFamily (modelName : string) : family :=
  let lower := toLowerCase modelName in
  if includes lower "claude" then Claude
  else if includes lower "gemini" then Gemini
  else Unknown.

Definition isDigit (c : ascii) : bool :=
  let n := nat_of_ascii c in (48 <=? n)%nat && (n <=? 57)%nat.

(** The decimal value of the digits [s] starts with, after [acc];
    [None] when [s] starts with no digit and [acc] is [None]. *)
Fixpoint leadingNumber (s : string) (acc : option N) : option N :=
  match s with
  | String c s' =>
      if isDigit c then
        let d := (N_of_ascii c - 48)%N in
        leadingNumber s' (Some (match acc with
                                | Some a => 10 * a + d
                                | None => d
                                end)%N)
      else acc
  | EmptyString => acc
  end.

(** [s] without the prefix [p], when it has it. *)
Fixpoint stripPrefix (p s : string) : option string :=
  match p, s with
  | EmptyString, _ => Some s
  | String a p', String b s' =>
      if Ascii.eqb a b then stripPrefix p' s' else None
  | String _ _, EmptyString => None
  end.

(** [parseInt(lower.match(/gemini-(\d+)/)[1], 10)]: the number after the
    leftmost ["gemini-"] that a digit follows; [None] when the pattern
    does not match. *)
Fixpoint geminiVersion (s : string) : option N :=
  let here :=
    match stripPrefix "gemini-" s with
    | Some rest => leadingNumber rest None
    | None => None
    end in
  match here with
  | Some v => Some v
  | None =>
      match s with
      | EmptyString => None
      | String _ s' => geminiVersion s'
      end
  end.

Definition isThinkingModel (modelName : string) : bool :=
  let lower := toLowerCase modelName in
  if includes lower "claude" && includes lower "thinking" then true
  else if includes lower "gemini" then
    if includes lower "thinking" then true
    else match geminiVersion lower with
         | Some v => (3 <=? v)%N
         | None => false
         end
  else false.

(** *** What the converter imports *)

(** Constants and collaborators whose bodies are not among the sources
    and of which the spec fixes no more than the interface. *)
Class Imports : Type := {
  (** [constants/index.js] *)
  MIN_SIGNATURE_LENGTH : nat;
  (** The signature cache as the request finds it: [get(key)] of spec
      section 4.1, absence being a normal outcome. *)
  getCachedSignature : string -> option string;
  (** [convertRole], a renaming of roles. *)
  convertRole : string -> string;
  (** Modelled from the spec: [convertContentToParts] of
      [format/content-converter.js], which is not among the sources.
      Spec, section 1: converting content between the vendor
      vocabularies is a pure, stateless transformation. It yields an
      array of parts and leaves the arrays there are as they are.
      Which parts it makes of the blocks (what becomes of unsigned
      thinking, for one) and whether the array it yields is a new one
      is not fixed. *)
  convertContentToParts : content -> bool -> bool -> H loc;
  convertContentToParts_pure :
    forall (c : content) (isClaude isGemini : bool) (h : heap),
      extends h (snd (convertContentToParts c isClaude isGemini h));
  convertContentToParts_array :
    forall (c : content) (isClaude isGemini : bool) (h : heap),
      fst (convertContentToParts c isClaude isGemini h)
      < List.length (snd (convertContentToParts c isClaude isGemini h));
  (** [closeToolLoopForThinking] of [format/thinking-utils.js], which
      is not among the sources. Spec, section 4.3 step 5 and section 9:
      what the step synthesizes is an implementation choice; nothing is
      fixed of it here. *)
  closeToolLoopForThinking : list message -> H (list message)
}.

Section WithImports.
Context {imports : Imports}.

(** **** The thinking utilities, from the spec *)

(** Modelled from the spec: [hasValidSignature] of
    [format/thinking-utils.js], which is not among the sources. Spec,
    section 3: a signature counts when it is present and not shorter
    than the minimum signature length. *)
Definition hasValidSignature (signature : option string) : bool :=
  match signature with
  | Some s => (MIN_SIGNATURE_LENGTH <=? String.length s)%nat
  | None => false
  end.

Definition isThinking (b : ContentBlock) : bool :=
  match b with Thinking _ _ _ => true | _ => false end.
Definition isText (b : ContentBlock) : bool :=
  match b with Text _ => true | _ => false end.
Definition isToolInvocation (b : ContentBlock) : bool :=
  match b with ToolInvocation _ _ _ => true | _ => false end.
Definition isToolResult (b : ContentBlock) : bool :=
  match b with ToolResult _ _ => true | _ => false end.

(** Modelled from the spec: the test for an unsigned block
    ([format/thinking-utils.js] is not among the sources). Spec,
    section 3: a [Thinking] block without a valid signature. *)
Definition unsignedThinking (b : ContentBlock) : bool :=
  match b with
  | Thinking _ signature _ => negb (hasValidSignature signature)
  | _ => false
  end.

(** Modelled from the spec: the cache lookup of
    [restoreThinkingSignatures] ([format/thinking-utils.js] and
    [format/signature-cache.js] are not among the sources). Spec,
    section 4.3 step 1: the signature is looked up under an
    identifier associated with the block, such as a tool invocation
    of the same turn; here the first invocation of the turn the cache
    knows. *)
Fixpoint cachedForTurn (blocks : list ContentBlock) : option string :=
  match blocks with
  | [] => None
  | ToolInvocation id _ _ :: rest =>
      match getCachedSignature id with
      | Some s => Some s
      | None => cachedForTurn rest
      end
  | _ :: rest => cachedForTurn rest
  end.

(** Modelled from the spec: the block list [restoreThinkingSignatures]
    returns ([format/thinking-utils.js] is not among the sources).
    Spec, section 4.3 step 1: every [Thinking] block lacking a valid
    signature gets the signature the cache holds for an identifier
    associated with it, here a tool invocation of the same turn; a
    block for which none is found is left as it is. *)
Definition restoredBlocks (blocks : list ContentBlock) : list ContentBlock :=
  map (fun b =>
         match b with
         | Thinking text signature isThought =>
             if hasValidSignature signature then b
             else match cachedForTurn blocks with
                  | Some s => Thinking text (Some s) isThought
                  | None => b
                  end
         | _ => b
         end) blocks.

(** The blocks left once the leading ones that satisfy [p] are
    dropped. *)
Fixpoint dropWhile {A} (p : A -> bool) (l : list A) : list A :=
  match l with
  | [] => []
  | x :: rest => if p x then dropWhile p rest else l
  end.

(** Modelled from the spec: the block list
    [removeTrailingThinkingBlocks] returns ([format/thinking-utils.js]
    is not among the sources). Spec, section 4.3 step 2: scanning from
    the end, unsigned [Thinking] blocks are dropped until a signed or
    non-thinking block is met. *)
Definition prunedBlocks (blocks : list ContentBlock) : list ContentBlock :=
  rev (dropWhile unsignedThinking (rev blocks)).

(** Modelled from the spec: the block list [reorderAssistantContent]
    returns ([format/thinking-utils.js] is not among the sources).
    Spec, section 4.3 step 3: a stable partition into [Thinking], then
    [Text], then [ToolInvocation] blocks; [ToolResult] blocks, which
    the step does not touch, are kept after them. *)
Definition reorderedBlocks (blocks : list ContentBlock) : list ContentBlock :=
  filter isThinking blocks ++ filter isText blocks
  ++ filter isToolInvocation blocks ++ filter isToolResult blocks.

(** Modelled from the spec: [restoreThinkingSignatures],
    [removeTrailingThinkingBlocks] and [reorderAssistantContent] of
    [format/thinking-utils.js], which is not among the sources. Spec,
    section 4.3: each step is pure, it returns a new list and never
    changes the one it is given. *)
Definition restoreThinkingSignatures (l : loc) : H loc :=
  fun h => alloc (restoredBlocks (read h l)) h.
Definition removeTrailingThinkingBlocks (l : loc) : H loc :=
  fun h => alloc (prunedBlocks (read h l)) h.
Definition reorderAssistantContent (l : loc) : H loc :=
  fun h => alloc (reorderedBlocks (read h l)) h.

(** Modelled from the spec: [filterUnsignedThinkingBlocks] of
    [format/thinking-utils.js], which is not among the sources. Spec,
    section 4.3, last paragraph: every unsigned [Thinking] block is
    dropped, anywhere in the contents list; the result is a new
    list. *)
Definition filterUnsignedThinkingBlocks (contents : list googleContent)
  : H (list googleContent) :=
  mapM (fun c =>
          fun h =>
            let '(parts, h') :=
              alloc (filter (fun b => negb (unsignedThinking b))
                            (read h (gc_parts c))) h in
            (mkContent (gc_role c) parts, h'))
       contents.

(** [msg.role === 'assistant' || msg.role === 'model'] *)
Definition isAssistant (m : message) : bool :=
  (role m =? "assistant")%string || (role m =? "model")%string.

(** The identifiers of the tool invocations a block list ends in. *)
Fixpoint leadingInvocationIds (reversed : list ContentBlock) : list string :=
  match reversed with
  | ToolInvocation id _ _ :: rest => id :: leadingInvocationIds rest
  | _ => []
  end.
Definition trailingInvocationIds (blocks : list ContentBlock) : list string :=
  leadingInvocationIds (rev blocks).

(** The most recent assistant turn and the turns after it. *)
Fixpoint lastAssistant (msgs : list message) : option (message * list message) :=
  match msgs with
  | [] => None
  | m :: rest =>
      match lastAssistant rest with
      | Some found => Some found
      | None => if isAssistant m then Some (m, rest) else None
      end
  end.

Definition blocksOf (h : heap) (m : message) : list ContentBlock :=
  match msgContent m with
  | BlockArray l => read h l
  | StringContent _ => []
  end.

Definition isResultFor (ids : list string) (b : ContentBlock) : bool :=
  match b with
  | ToolResult id _ => existsb (String.eqb id) ids
  | _ => false
  end.

(** Modelled from the spec: [needsThinkingRecovery] of
    [format/thinking-utils.js], which is not among the sources. Spec,
    section 4.3 step 4: there is an open tool loop when the most
    recent assistant turn ends in one or more [ToolInvocation] blocks
    and no later turn holds a [ToolResult] for them. *)
Definition needsThinkingRecovery (h : heap) (msgs : list message) : bool :=
  match lastAssistant msgs with
  | Some (m, following) =>
      let ids := trailingInvocationIds (blocksOf h m) in
      match ids with
      | [] => false
      | _ :: _ =>
          negb (existsb (fun m' => existsb (isResultFor ids) (blocksOf h m'))
                        following)
      end
  | None => false
  end.

(** **** [generateClaudeRequestBody] *)

Definition isClaudeModel (modelName : string) : bool :=
  match getModelFamily modelName with Claude => true | _ => false end.
Definition isGeminiModel (modelName : string) : bool :=
  match getModelFamily modelName with Gemini => true | _ => false end.

(** The condition of line 160. *)
Definition recoveryApplies (modelName : string) (h : heap)
           (claudeMessages : list message) : bool :=
  isGeminiModel modelName && isThinkingModel modelName
  && needsThinkingRecovery h claudeMessages.

(** Lines 159-163: [processedMessages]. *)
Definition processedMessages (modelName : string)
           (claudeMessages : list message) : H (list message) :=
  fun h =>
    if recoveryApplies modelName h claudeMessages
    then closeToolLoopForThinking claudeMessages h
    else ret claudeMessages h.

(** Lines 167-191: the body of the loop, giving the entry pushed onto
    [googleRequest.contents]. *)
Definition convertMessage (isClaude isGemini : bool) (msg : message)
  : H googleContent :=
  c <- (match msgContent msg with
        | BlockArray l =>
            if isAssistant msg then
              l1 <- restoreThinkingSignatures l ;;
              l2 <- removeTrailingThinkingBlocks l1 ;;
              l3 <- reorderAssistantContent l2 ;;
              ret (BlockArray l3)
            else ret (BlockArray l)
        | StringContent s => ret (StringContent s)
        end) ;;
  parts <- convertContentToParts c isClaude isGemini ;;
  n <- lengthOf parts ;;
  (if (n =? 0)%nat then push parts (Text "") else ret tt) ;;;
  ret (mkContent (convertRole (role msg)) parts).

(** Lines 166-193: the loop over [processedMessages]. *)
Definition convertMessages (isClaude isGemini : bool) (msgs : list message)
  : H (list googleContent) :=
  mapM (convertMessage isClaude isGemini) msgs.

(** [generateClaudeRequestBody(claudeMessages, modelName, ...)], as far
    as [requestBody.request.contents] goes. *)
Definition generateClaudeRequestBody (claudeMessages : list message)
           (modelName : string) : H (list googleContent) :=
  let isClaude := isClaudeModel modelName in
  let isGemini := isGeminiModel modelName in
  processed <- processedMessages modelName claudeMessages ;;
  contents <- convertMessages isClaude isGemini processed ;;
  if isClaude then filterUnsignedThinkingBlocks contents
  else ret contents.

(** **** Vocabulary of the statements *)

(** [h'] is [h] after pushes and with new arrays: every array of
    [h] is in [h'], at its place, with the blocks it had and maybe
    more after them. *)
Definition grows (h h' : heap) : Prop :=
  List.length h <= List.length h'
  /\ forall l : loc, l < List.length h ->
       exists pushed, read h' l = read h l ++ pushed.

(** An entry whose parts array is in the store and is not empty. *)
Definition filled (h : heap) (c : googleContent) : Prop :=
  gc_parts c < List.length h /\ read h (gc_parts c) <> [].

(** What the final filter keeps of an array. *)
Definition signedOnly (bs : list ContentBlock) : list ContentBlock :=
  filter (fun b => negb (unsignedThinking b)) bs.

(** The entry [c'] of the store [h'] is the entry [c] of the store [h]
    after the final filter. *)
Definition filteredFrom (h h' : heap) (c c' : googleContent) : Prop :=
  gc_role c' = gc_role c
  /\ List.length h <= gc_parts c' < List.length h'
  /\ read h' (gc_parts c') = signedOnly (read h (gc_parts c)).

(** The parts of the entries of a request, read from the store. *)
Definition partsIn (h : heap) (contents : list googleContent)
  : list (list ContentBlock) :=
  map (fun c => read h (gc_parts c)) contents.

End WithImports.

End ClaudeConverter.

(** ** A small conversation

    Imports with a threshold of four characters, an empty signature
    cache, a converter that makes a part of every block, and a recovery
    step that appends a closing turn; used to run the converter on
    concrete histories. *)

Module SampleConversation.
Import ClaudeConverter.

(** One part for every block, in a new array. *)
Definition partPerBlock (c : content) (isClaude isGemini : bool) : H loc :=
  match c with
  | StringContent s => alloc [Text s]
  | BlockArray l => fun h => alloc (read h l) h
  end.

#[local] Instance imports : Imports := {|
  MIN_SIGNATURE_LENGTH := 4;
  getCachedSignature := fun _ => None;
  convertRole := fun r => if (r =? "assistant")%string then "model" else r;
  convertContentToParts := partPerBlock;
  convertContentToParts_pure :=
    ltac:(intros [s | l] isC isG h; eexists; reflexivity);
  convertContentToParts_array :=
    ltac:(intros [s | l] isC isG h; cbn; rewrite length_app; cbn; lia);
  closeToolLoopForThinking := fun msgs =>
    ret (msgs ++ [mkMessage "assistant" (StringContent "[closed]")])
|}.

(** An assistant turn: unsigned thinking, text, a tool invocation. *)
Definition turn : list ContentBlock :=
  [Thinking "a" None true; Text "b"; ToolInvocation "t1" "search" []].

(** A store holding that turn and an array with one unsigned thinking
    block. *)
Definition store : heap := [turn; [Thinking "x" None true]].

Definition assistantTurn : message := mkMessage "assistant" (BlockArray 0).
Definition userThinking : message := mkMessage "user" (BlockArray 1).

End SampleConversation.

(** ** The object pools of the decoder (stream_parser.js, lines 42-66)

    A pool is a stack: [pop] takes the object pushed last. Pooled objects
    are modelled by their fields; an object released while its user still
    holds it is outside the model. The bound [maxSize] is what
    [memoryManager.getPoolSizes()] answers at the call. *)

Module Pools.
Import StreamParser.

(** [lineBufferPool], top of the stack first. *)
Definition linePool : Type := list LineBuffer.t.

(** [getLineBuffer()], lines 44-51. *)
Definition getLineBuffer (pool : linePool) : LineBuffer.t * linePool :=
  match pool with
  | buffer :: rest => (LineBuffer.clear buffer, rest)
  | [] => (LineBuffer.new, [])
  end.

(** [releaseLineBuffer(buffer)], lines 52-58. *)
Definition releaseLineBuffer (maxSize : Z) (buffer : LineBuffer.t)
           (pool : linePool) : linePool :=
  if (Z.of_nat (List.length pool) <? maxSize)%Z
  then LineBuffer.clear buffer :: pool
  else pool.

(** What a user of the pool does. *)
Inductive poolOp : Type :=
| Acquire
| Release (maxSize : Z) (buffer : LineBuffer.t).

Definition step (pool : linePool) (op : poolOp) : linePool :=
  match op with
  | Acquire => snd (getLineBuffer pool)
  | Release maxSize buffer => releaseLineBuffer maxSize buffer pool
  end.

Definition run (ops : list poolOp) (pool : linePool) : linePool :=
  fold_left step ops pool.

(** The bound in force at an operation is at most [bound]. *)
Definition boundedBy (bound : Z) (op : poolOp) : Prop :=
  match op with
  | Acquire => True
  | Release maxSize _ => (maxSize <= bound)%Z
  end.

(** [releaseToolCallObject(obj)], lines 63-66: the object goes back as
    it is. *)
Definition releaseToolCallObject (maxSize : Z) (obj : toolCall) : M unit :=
  fun w =>
    (Normal tt,
     if (Z.of_nat (List.length (toolCallPool w)) <? maxSize)%Z
     then mkWorld (st w) (obj :: toolCallPool w) (idsIssued w)
                  (cacheCalls w) (emitted w)
     else w).

End Pools.

(** ** Decoding a stream: chunks to lines to events

    The two halves of the module put together the way they are made to
    be used: every chunk goes through [append], every line it returns
    through [parseAndEmitStreamChunk], before the next chunk is
    appended. *)

Module Decoder.
Import StreamParser.

Fixpoint decode {host : Host} (lb : LineBuffer.t) (chunks : list string)
  : M LineBuffer.t :=
  match chunks with
  | [] => ret lb
  | chunk :: rest =>
      let '(lines, lb') := LineBuffer.append lb chunk in
      parseLines lines ;;; decode lb' rest
  end.

End Decoder.

(** ** Vocabulary for what a run of the decoder may change *)

Module Effects.
Import Js StreamParser.

(** An event that carries a delta of the answer. *)
Definition isDelta (e : event) : bool :=
  match e with
  | Reasoning _ _ | TextDelta _ => true
  | _ => false
  end.

Section WithHost.
Context {host : Host}.

(** From [w] to [w']: events and cache calls were only added, the
    added events satisfy [P], the added cache calls carry valid
    signatures, the stream's session and model are the same, the
    reasoning signature is the same or a valid one, and no object
    was put back into the pool. *)
Definition advances (P : event -> bool) (w w' : world) : Prop :=
  (exists evs, emitted w' = emitted w ++ evs
               /\ Forall (fun e => P e = true) evs)
  /\ (exists calls, cacheCalls w' = cacheCalls w ++ calls
                    /\ Forall (fun kc => validSignature (snd kc) = true) calls)
  /\ idsIssued w <= idsIssued w'
  /\ sessionId (st w') = sessionId (st w)
  /\ model (st w') = model (st w)
  /\ (reasoningSignature (st w') = reasoningSignature (st w)
      \/ validSignature (reasoningSignature (st w')) = true)
  /\ List.length (toolCallPool w') <= List.length (toolCallPool w).

(** A statement that only advances the world, whatever it returns. *)
Definition advancing {A} (P : event -> bool) (m : M A) : Prop :=
  forall w, advances P w (snd (m w)).

(** What the closing of a turn may add after the deltas of a
    record. *)
Definition closingEvents (tail : list event) : Prop :=
  tail = []
  \/ (exists tcs, tcs <> [] /\ tail = [ToolCalls tcs])
  \/ (exists a b c, tail = [Usage a b c])
  \/ (exists tcs a b c, tcs <> [] /\ tail = [ToolCalls tcs; Usage a b c]).

End WithHost.

Definition anyEvent (e : event) : bool := true.

End Effects.

(** ** More sample records *)

Module MoreSamples.
Import Js StreamParser.

(** A part with text, a function call and a signature. *)
Definition part_text_and_call : value :=
  VObj [("text", VStr "hello");
        ("functionCall", VObj [("id", VStr "t9"); ("name", VStr "run")]);
        ("thoughtSignature", VStr "signature-1")].

(** A call without identifier or signature. *)
Definition part_bare_call : value :=
  VObj [("functionCall", VObj [("name", VStr "run"); ("args", VObj [])])].

(** A finishing record whose [parts] is a number. *)
Definition numberAsParts : value :=
  VObj [("response",
         VObj [("candidates",
                VArr [VObj [("content", VObj [("parts", VNum 7)]);
                            ("finishReason", VStr "STOP")]]);
               ("usageMetadata", VObj [("totalTokenCount", VNum 3)])])].

(** A finishing record with a [null] between two parts. *)
Definition nullInParts : value :=
  Sample.record [Sample.part_thought "a" VUndefined; VNull;
                 Sample.part_call "t1" "search"]
                [("finishReason", VStr "STOP")].

(** A record with one text part and no finish reason, with usage
    counters. *)
Definition textOnly : value :=
  VObj [("response",
         VObj [("candidates",
                VArr [VObj [("content",
                             VObj [("parts", VArr [VObj [("text", VStr "hi")]])])]]);
               ("usageMetadata", VObj [("totalTokenCount", VNum 3)])])].

#[local] Instance host : Host := {|
  MIN_SIGNATURE_LENGTH := 4;
  JSON_parse := fun s =>
    if (s =? "number-as-parts")%string then Some numberAsParts
    else if (s =? "null-in-parts")%string then Some nullInParts
    else if (s =? "text-only")%string then Some textOnly
    else None;
  JSON_stringify := fun v => match v with VObj [] => VStr "{}" | _ => VUndefined end;
  generateToolCallId := fun n => VStr "call";
  getOriginalToolName := fun _ _ _ => VUndefined;
  ToNumberOther := fun _ => None
|}.

(** A tool call that was emitted with a signature. *)
Definition usedToolCall : toolCall :=
  mkToolCall (VStr "t0") (VStr "old") (VStr "{}") (VStr "signature-0").

End MoreSamples.

(** ** The rest of the Claude converter (claude.js, lines 60-104, 131-156,
    200-268) *)

Module Names.

(** A character of the class [[a-zA-Z0-9_-]]. *)
Definition isNameChar (c : ascii) : bool :=
  let n := nat_of_ascii c in
  ((97 <=? n)%nat && (n <=? 122)%nat)
  || ((65 <=? n)%nat && (n <=? 90)%nat)
  || ((48 <=? n)%nat && (n <=? 57)%nat)
  || (n =? 95)%nat || (n =? 45)%nat.

Definition underscore : ascii := "_"%char.

(** [s.replace(/[^a-zA-Z0-9_-]/g, '_')] *)
Fixpoint replaceOthers (s : string) : string :=
  match s with
  | EmptyString => EmptyString
  | String c s' =>
      String (if isNameChar c then c else underscore) (replaceOthers s')
  end.

(** Every character of [s] is of the class. *)
Fixpoint allNameChars (s : string) : bool :=
  match s with
  | EmptyString => true
  | String c s' => isNameChar c && allNameChars s'
  end.

Definition firstChar (s : string) : option ascii :=
  match s with
  | EmptyString => None
  | String c _ => Some c
  end.

Fixpoint lastChar (s : string) : option ascii :=
  match s with
  | EmptyString => None
  | String c EmptyString => Some c
  | String _ s' => lastChar s'
  end.

End Names.

Module ClaudeRequest.
Import Js ClaudeConverter Names.

(** Constants and conversions the converter takes from elsewhere. *)
Class Limits : Type := {
  (** [constants/index.js] *)
  GEMINI_MAX_OUTPUT_TOKENS : Z;
  (** ToNumber on strings, arrays and objects; [None] is NaN. *)
  ToNumberOther : value -> option Z
}.

(** ["\n\n"] *)
Definition blankLine : string := String JsString.LF (String JsString.LF "").

Definition nonEmpty (s : string) : bool := negb (s =? "")%string.

(** Line 145. *)
Definition hint : string :=
  "Interleaved thinking is enabled. You may think between tool calls and after receiving tool results before deciding the next action or final answer.".

(** Lines 132-135: [mergedSystem], from [config.systemInstruction || '']
    and the caller's [systemPrompt] (the empty string when there is
    none). *)
Definition mergedSystem (baseSystem systemPrompt : string) : string :=
  if nonEmpty systemPrompt then
    if nonEmpty baseSystem
    then (baseSystem ++ blankLine ++ systemPrompt)%string
    else systemPrompt
  else baseSystem.

(** [parts[parts.length - 1]] replaced by [text]. *)
Fixpoint setLast (parts : list string) (text : string) : list string :=
  match parts with
  | [] => []
  | [_] => [text]
  | p :: rest => p :: setLast rest text
  end.

(** Lines 146-155, on the texts of [systemInstruction.parts]; [None]
    when there is no [systemInstruction]. *)
Definition addHint (instruction : option (list string)) : option (list string) :=
  match instruction with
  | None => Some [hint]
  | Some parts =>
      match List.last (map Some parts) None with
      | Some text =>
          if nonEmpty text
          then Some (setLast parts (text ++ blankLine ++ hint)%string)
          else Some (parts ++ [hint])
      | None => Some (parts ++ [hint])
      end
  end.

(** Lines 131-156: the texts of the parts of
    [googleRequest.systemInstruction]; [toolCount] is
    [claudeTools.length], 0 when there are no tools. *)
Definition systemInstruction (baseSystem systemPrompt modelName : string)
           (toolCount : nat) : option (list string) :=
  let merged := mergedSystem baseSystem systemPrompt in
  let instruction := if nonEmpty merged then Some [merged] else None in
  if isClaudeModel modelName && isThinkingModel modelName
     && (0 <? toolCount)%nat
  then addHint instruction
  else instruction.

Section WithLimits.
Context {limits : Limits}.

Definition ToNumber (v : value) : option Z :=
  match v with
  | VUndefined => None
  | VNull => Some 0%Z
  | VBool b => Some (if b then 1 else 0)%Z
  | VNum n => Some n
  | VStr _ | VArr _ | VObj _ => ToNumberOther v
  end.

(** [v > n] for a number [n]. *)
Definition gtNum (v : value) (n : Z) : bool :=
  match ToNumber v with
  | Some x => (n <? x)%Z
  | None => false
  end.

(** Lines 203-207 and 264-268: [generationConfig.maxOutputTokens],
    from [parameters.max_tokens] and [defaults.max_tokens]
    ([VUndefined] when it is not set). *)
Definition maxOutputTokens (requested fallback : value) (modelName : string)
  : value :=
  let chosen :=
    if truthy requested then requested
    else if truthy fallback then fallback
    else VUndefined in
  if isGeminiModel modelName && gtNum chosen GEMINI_MAX_OUTPUT_TOKENS
  then VNum GEMINI_MAX_OUTPUT_TOKENS
  else chosen.

End WithLimits.

(** Line 97: the name of a function declaration, for a name that is a
    string. *)
Definition declarationName (name : string) : string :=
  substring 0 64 (replaceOthers name).

End ClaudeRequest.

(** ** General utilities (utils.js) *)

Module Utils.
Import Js Names.

(** [s.replace(/^_+/, '')] *)
Fixpoint stripLeading (s : string) : string :=
  match s with
  | String c s' => if Ascii.eqb c underscore then stripLeading s' else s
  | EmptyString => EmptyString
  end.

(** [s.replace(/_+$/, '')] *)
Fixpoint stripTrailing (s : string) : string :=
  match s with
  | EmptyString => EmptyString
  | String c s' =>
      match stripTrailing s' with
      | EmptyString => if Ascii.eqb c underscore then EmptyString else String c ""
      | rest => String c rest
      end
  end.

(** [sanitizeToolName(name)], lines 8-15. *)
Definition sanitizeToolName (name : value) : string :=
  match name with
  | VStr s =>
      if (s =? "")%string then "tool"
      else
        let cleaned := replaceOthers s in
        let cleaned := stripTrailing (stripLeading cleaned) in
        let cleaned := if (cleaned =? "")%string then "tool" else cleaned in
        if (128 <? String.length cleaned)%nat then substring 0 128 cleaned
        else cleaned
  | _ => "tool"
  end.

(** The name after the two replacements of lines 10 and 11. *)
Definition cleanedName (s : string) : string :=
  stripTrailing (stripLeading (replaceOthers s)).

(** A name that [sanitizeToolName] has nothing to do on. *)
Definition wellFormedName (s : string) : Prop :=
  s <> ""%string
  /\ allNameChars s = true
  /\ firstChar s <> Some underscore
  /\ lastChar s <> Some underscore
  /\ String.length s <= 128.

(** [modelMapping(modelName)], lines 18-23. *)
Definition modelMapping (modelName : string) : string :=
  if (modelName =? "claude-sonnet-4-5-thinking")%string then "claude-sonnet-4-5"
  else if (modelName =? "claude-opus-4-5")%string then "claude-opus-4-5-thinking"
  else if (modelName =? "gemini-2.5-flash-thinking")%string then "gemini-2.5-flash"
  else modelName.

(** [isEnableThinking(modelName)], lines 25-31. *)
Definition isEnableThinking (modelName : string) : bool :=
  ClaudeConverter.includes modelName "-thinking"
  || (modelName =? "gemini-2.5-pro")%string
  || JsString.startsWith modelName "gemini-3-pro-"
  || (modelName =? "rev19-uic3-1p")%string
  || (modelName =? "gpt-oss-120b-medium")%string.

(** *** [extractSystemInstruction], lines 60-82 *)

(** [message.content]: a string, an array of items [{ type, text }], or
    anything else. *)
Inductive messageContent : Type :=
| ContentString (s : string)
| ContentItems (items : list (string * string))
| ContentOther.

Record chatMessage : Type := mkChat { chatRole : string; chatContent : messageContent }.

(** The configuration and the built-in the function reads. *)
Class Config : Type := {
  (** [config.systemInstruction || ''] *)
  configSystemInstruction : string;
  (** [config.useContextSystemPrompt], as a condition *)
  useContextSystemPrompt : bool;
  (** [String.prototype.trim] *)
  trim : string -> string
}.

(** [xs.join(sep)] for strings. *)
Fixpoint join (sep : string) (xs : list string) : string :=
  match xs with
  | [] => ""
  | [x] => x
  | x :: rest => (x ++ sep ++ join sep rest)%string
  end.

(** Lines 67-71: the text of a message. *)
Definition contentText (c : messageContent) : string :=
  match c with
  | ContentString s => s
  | ContentItems items =>
      join "" (map snd (filter (fun item => (fst item =? "text")%string) items))
  | ContentOther => ""
  end.

Section WithConfig.
Context {config : Config}.

(** Lines 64-76: the loop that fills [systemTexts]. *)
Fixpoint systemTexts (messages : list chatMessage) : list string :=
  match messages with
  | [] => []
  | message :: rest =>
      if (chatRole message =? "system")%string then
        let content := contentText (chatContent message) in
        if ClaudeRequest.nonEmpty (trim content)
        then trim content :: systemTexts rest
        else systemTexts rest
      else []
  end.

Definition extractSystemInstruction (openaiMessages : list chatMessage) : string :=
  let baseSystem := configSystemInstruction in
  if negb useContextSystemPrompt then baseSystem
  else
    let texts := systemTexts openaiMessages in
    let parts :=
      (if ClaudeRequest.nonEmpty (trim baseSystem) then [trim baseSystem] else [])
      ++ (match texts with
          | [] => []
          | _ :: _ => [join ClaudeRequest.blankLine texts]
          end) in
    join ClaudeRequest.blankLine parts.

End WithConfig.

(** *** [getDefaultIp], lines 112-128 *)

Record netInterface : Type := mkInterface {
  family : string;
  internal : bool;
  address : string
}.

(** [os.networkInterfaces()], as far as the function looks: the entries
    [WLAN] and [wlan2], when there are such. *)
Record interfaces : Type := mkInterfaces {
  WLAN : option (list netInterface);
  wlan2 : option (list netInterface)
}.

Definition usable (i : netInterface) : bool :=
  (family i =? "IPv4")%string && negb (internal i).

(** The [for] loops of lines 115-119 and 121-125; [None] when the loop
    ends without returning. *)
Definition firstUsable (l : list netInterface) : option string :=
  option_map address (find usable l).

Definition loopback : string := "127.0.0.1".

Definition getDefaultIp (i : interfaces) : string :=
  match WLAN i with
  | Some l =>
      match firstUsable l with Some a => a | None => loopback end
  | None =>
      match wlan2 i with
      | Some l =>
          match firstUsable l with Some a => a | None => loopback end
      | None => loopback
      end
  end.

End Utils.

(** ** Samples for the utilities *)

Module UtilSamples.
Import Utils.

(** A configuration that reads the context, with a [trim] that removes
    spaces at both ends. *)
Fixpoint dropSpaces (s : string) : string :=
  match s with
  | String " " s' => dropSpaces s'
  | _ => s
  end.

Fixpoint dropTrailingSpaces (s : string) : string :=
  match s with
  | EmptyString => EmptyString
  | String c s' =>
      match dropTrailingSpaces s' with
      | EmptyString => if Ascii.eqb c " " then EmptyString else String c ""
      | rest => String c rest
      end
  end.

#[local] Instance config : Config := {|
  configSystemInstruction := "base";
  useContextSystemPrompt := true;
  trim := fun s => dropTrailingSpaces (dropSpaces s)
|}.

#[local] Instance limits : ClaudeRequest.Limits := {|
  ClaudeRequest.GEMINI_MAX_OUTPUT_TOKENS := 65535;
  ClaudeRequest.ToNumberOther := fun _ => None
|}.

End UtilSamples.

(* ================================================================== *)
(** * Part II: properties *)
(* ================================================================== *)

(** ** The line buffer *)

Example append_two_chunks :
  let lf := String JsString.LF "" in
  let '(ls1, lb1) := LineBuffer.append LineBuffer.new ("a" ++ lf ++ "b")%string in
  let '(ls2, lb2) := LineBuffer.append lb1 ("c" ++ lf)%string in
  (ls1, LineBuffer.buffer lb1, ls2, LineBuffer.buffer lb2)
  = (["a"], "b", ["bc"], "").
Proof. reflexivity. Qed.

Section LineBufferFacts.
Import JsString LineBuffer.

Local Notation "s +++ t" := (String.append s t)
  (at level 60, right associativity).

Lemma str_app_assoc (a b c : string) : (a +++ b) +++ c = a +++ (b +++ c).
Proof. induction a as [|x a IH]; simpl; [reflexivity | now rewrite IH]. Qed.

Lemma str_app_nil_r (a : string) : a +++ "" = a.
Proof. induction a as [|x a IH]; simpl; [reflexivity | now rewrite IH]. Qed.

Lemma str_app_length (a b : string) :
  String.length (a +++ b) = String.length a + String.length b.
Proof. induction a as [|x a IH]; simpl; [reflexivity | now rewrite IH]. Qed.

(** *** [indexOf], [slice] and concatenation *)

Lemma indexOf_skip (pre rest : string) (c : ascii) :
  indexOf (pre +++ rest) c (String.length pre)
  = option_map (Nat.add (String.length pre)) (indexOf rest c 0).
Proof.
  induction pre as [|x pre IH]; simpl.
  - destruct (indexOf rest c 0); reflexivity.
  - rewrite IH. destruct (indexOf rest c 0); reflexivity.
Qed.

Lemma indexOf_found (s : string) (c : ascii) (e : nat) :
  indexOf s c 0 = Some e ->
  exists l r, s = l +++ String c r /\ String.length l = e /\ indexOf l c 0 = None.
Proof.
  revert e. induction s as [|x s IH]; simpl; intros e H; [discriminate|].
  destruct (Ascii.eqb x c) eqn:E.
  - apply Ascii.eqb_eq in E. subst x. injection H as <-.
    exists "", s. repeat split.
  - destruct (indexOf s c 0) as [k|] eqn:K; simpl in H; [|discriminate].
    injection H as <-.
    destruct (IH k eq_refl) as (l & r & -> & Hl & Hn).
    exists (String x l), r. simpl. rewrite E, Hn, Hl. repeat split.
Qed.

Lemma indexOf_app_none (l r : string) (c : ascii) :
  indexOf l c 0 = None ->
  indexOf (l +++ r) c 0 = option_map (Nat.add (String.length l)) (indexOf r c 0).
Proof.
  induction l as [|x l IH]; simpl; intros H.
  - destruct (indexOf r c 0); reflexivity.
  - destruct (Ascii.eqb x c); [discriminate|].
    destruct (indexOf l c 0) eqn:K; [discriminate|].
    rewrite (IH eq_refl). destruct (indexOf r c 0); reflexivity.
Qed.

Lemma substring_skip (pre s : string) (n : nat) :
  substring (String.length pre) n (pre +++ s) = substring 0 n s.
Proof. induction pre as [|x pre IH]; simpl; [reflexivity | exact IH]. Qed.

Lemma substring_take (l r : string) :
  substring 0 (String.length l) (l +++ r) = l.
Proof.
  induction l as [|x l IH]; simpl.
  - destruct r; reflexivity.
  - now rewrite IH.
Qed.

Lemma slice_middle (pre l r : string) :
  slice (pre +++ l +++ r) (String.length pre) (String.length pre + String.length l) = l.
Proof.
  unfold slice.
  replace (String.length pre + String.length l - String.length pre)
    with (String.length l) by lia.
  rewrite substring_skip. apply substring_take.
Qed.

Lemma sliceFrom_tail (pre r : string) :
  sliceFrom (pre +++ r) (String.length pre) = r.
Proof.
  unfold sliceFrom. rewrite str_app_length.
  replace (String.length pre + String.length r - String.length pre)
    with (String.length r) by lia.
  rewrite substring_skip.
  rewrite <- (str_app_nil_r r) at 2. apply substring_take.
Qed.

(** *** The reference splitting *)

Lemma splitLines_noLF (s : string) : noLF s -> splitLines s = ([], s).
Proof.
  unfold noLF. induction s as [|x s IH]; simpl; intros H; [reflexivity|].
  destruct (Ascii.eqb x LF); [discriminate|].
  destruct (indexOf s LF 0) eqn:K; [discriminate|].
  now rewrite (IH eq_refl).
Qed.

Lemma splitLines_line (l r : string) :
  noLF l ->
  splitLines (l +++ String LF r)
  = (l :: fst (splitLines r), snd (splitLines r)).
Proof.
  unfold noLF. induction l as [|x l IH]; simpl; intros H.
  - destruct (splitLines r); reflexivity.
  - destruct (Ascii.eqb x LF); [discriminate|].
    destruct (indexOf l LF 0) eqn:K; [discriminate|].
    rewrite (IH eq_refl). reflexivity.
Qed.

(** A text is its terminated lines followed by its tail. *)
Lemma splitLines_join (s : string) :
  terminated (fst (splitLines s)) +++ snd (splitLines s) = s.
Proof.
  induction s as [|x s IH]; simpl; [reflexivity|].
  destruct (splitLines s) as [ls r]. simpl in IH.
  destruct (Ascii.eqb x LF) eqn:E.
  - apply Ascii.eqb_eq in E. subst x. simpl. now rewrite IH.
  - destruct ls as [|l ls]; simpl in *; now rewrite IH.
Qed.

Lemma splitLines_lines_noLF (s : string) : Forall noLF (fst (splitLines s)).
Proof.
  induction s as [|x s IH]; simpl; [constructor|].
  destruct (splitLines s) as [ls r]. simpl in IH.
  destruct (Ascii.eqb x LF) eqn:E.
  - constructor; [reflexivity | exact IH].
  - destruct ls as [|l ls]; simpl; [constructor|].
    inversion IH as [|? ? Hl Hls]; subst. constructor; [|exact Hls].
    unfold noLF in *. simpl. now rewrite E, Hl.
Qed.

Lemma splitLines_tail_noLF (s : string) : noLF (snd (splitLines s)).
Proof.
  induction s as [|x s IH]; simpl; [reflexivity|].
  destruct (splitLines s) as [ls r]. simpl in IH.
  destruct (Ascii.eqb x LF) eqn:E; [exact IH|].
  destruct ls as [|l ls]; simpl; [|exact IH].
  unfold noLF in *. simpl. now rewrite E, IH.
Qed.

(** The splitting is determined by the decomposition. *)
Lemma splitLines_unique (ls : list string) (r : string) :
  Forall noLF ls -> noLF r -> splitLines (terminated ls +++ r) = (ls, r).
Proof.
  intros Hls Hr. induction Hls as [|l ls Hl _ IH]; simpl.
  - now apply splitLines_noLF.
  - rewrite str_app_assoc. simpl. rewrite (splitLines_line _ _ Hl).
    now rewrite IH.
Qed.

Lemma terminated_app (l1 l2 : list string) :
  terminated (l1 ++ l2) = terminated l1 +++ terminated l2.
Proof.
  induction l1 as [|l l1 IH]; simpl; [reflexivity|].
  rewrite IH, str_app_assoc. reflexivity.
Qed.

(** *** The loop of [append] computes the reference splitting *)

Lemma scan_splitLines (fuel : nat) :
  forall (pre rest : string) (acc : list string),
    String.length rest < fuel ->
    scan fuel (pre +++ rest) (String.length pre) acc
    = (String.length (pre +++ rest) - String.length (snd (splitLines rest)),
       acc ++ fst (splitLines rest)).
Proof.
  induction fuel as [|fuel IH]; intros pre rest acc Hfuel; [lia|].
  simpl. rewrite indexOf_skip.
  destruct (indexOf rest LF 0) as [e|] eqn:E; simpl.
  - destruct (indexOf_found _ _ _ E) as (l & r & -> & Hl & Hn).
    subst e. rewrite slice_middle.
    rewrite (splitLines_line l r Hn). simpl.
    replace (String.length pre + String.length l + 1)
      with (String.length (pre +++ l +++ String LF "")).
    2:{ rewrite !str_app_length. simpl. lia. }
    replace (pre +++ l +++ String LF r)
      with ((pre +++ l +++ String LF "") +++ r).
    2:{ rewrite !str_app_assoc. reflexivity. }
    rewrite IH.
    + rewrite <- app_assoc. reflexivity.
    + rewrite str_app_length in Hfuel. simpl in Hfuel. lia.
  - rewrite (splitLines_noLF rest E). simpl.
    rewrite str_app_length, app_nil_r. f_equal. lia.
Qed.

Lemma scan_whole (fuel : nat) (buf : string) :
  String.length buf < fuel ->
  scan fuel buf 0 []
  = (String.length buf - String.length (snd (splitLines buf)),
     fst (splitLines buf)).
Proof. intros H. exact (scan_splitLines fuel "" buf [] H). Qed.

(** The bound on iterations in [append] is never the reason the loop
    stops: any larger bound gives the same result. *)
Lemma scan_fuel_enough (buf : string) (fuel : nat) :
  String.length buf < fuel ->
  scan fuel buf 0 [] = scan (S (String.length buf)) buf 0 [].
Proof.
  intros H.
  rewrite (scan_whole fuel buf H).
  now rewrite (scan_whole (S (String.length buf)) buf (Nat.lt_succ_diag_r _)).
Qed.

Lemma splitLines_tail_length (s : string) :
  String.length (snd (splitLines s)) <= String.length s.
Proof.
  rewrite <- (splitLines_join s) at 2. rewrite str_app_length. lia.
Qed.

Lemma append_splitLines (lb : t) (chunk : string) :
  append lb chunk
  = (fst (splitLines (buffer lb +++ chunk)),
     mk (snd (splitLines (buffer lb +++ chunk)))
        (fst (splitLines (buffer lb +++ chunk)))).
Proof.
  unfold append.
  set (buf := buffer lb +++ chunk).
  rewrite (scan_whole (S (String.length buf)) buf (Nat.lt_succ_diag_r _)).
  pose proof (splitLines_join buf) as J.
  pose proof (splitLines_tail_length buf) as L.
  set (ls := fst (splitLines buf)) in *.
  set (r := snd (splitLines buf)) in *.
  f_equal. f_equal.
  destruct (Nat.ltb_spec (String.length buf - String.length r) (String.length buf)) as [Hlt|Hge].
  - rewrite <- J at 1.
    replace (String.length buf - String.length r) with (String.length (terminated ls)).
    + apply sliceFrom_tail.
    + rewrite <- J. rewrite str_app_length. lia.
  - destruct r; [reflexivity | simpl in *; lia].
Qed.

Lemma feed_splitLines (chunks : list string) :
  forall lb : t,
    noLF (buffer lb) ->
    fst (feed lb chunks) = fst (splitLines (buffer lb +++ whole chunks))
    /\ buffer (snd (feed lb chunks)) = snd (splitLines (buffer lb +++ whole chunks)).
Proof.
  induction chunks as [|c cs IH]; intros lb Hb; simpl.
  - rewrite str_app_nil_r, (splitLines_noLF _ Hb). split; reflexivity.
  - rewrite append_splitLines.
    set (b1 := buffer lb +++ c).
    destruct (IH (mk (snd (splitLines b1)) (fst (splitLines b1))))
      as [IH1 IH2]; [apply splitLines_tail_noLF|].
    simpl in IH1, IH2.
    destruct (feed _ cs) as [ls' lb2]. simpl in *.
    assert (E : splitLines (buffer lb +++ c +++ whole cs)
                = (fst (splitLines b1) ++ ls', buffer lb2)).
    { rewrite <- str_app_assoc. fold b1.
      rewrite <- (splitLines_join b1) at 1.
      rewrite str_app_assoc.
      rewrite <- (splitLines_join (snd (splitLines b1) +++ whole cs)).
      rewrite <- IH1, <- IH2.
      rewrite <- str_app_assoc, <- terminated_app.
      apply splitLines_unique.
      - apply Forall_app. split; [apply splitLines_lines_noLF|].
        rewrite IH1. apply splitLines_lines_noLF.
      - rewrite IH2. apply splitLines_tail_noLF. }
    rewrite E. split; reflexivity.
Qed.

(** *** One-character chunks *)

Lemma whole_characters (s : string) : whole (characters s) = s.
Proof.
  unfold whole. induction s as [|c s IH]; cbn; [reflexivity | now rewrite IH].
Qed.

(** Fed one character at a time, a fresh buffer returns the lines it
    returns for the whole text. *)
Lemma feed_by_character (s : string) :
  fst (feed new (characters s)) = fst (append new s)
  /\ buffer (snd (feed new (characters s))) = buffer (snd (append new s)).
Proof.
  destruct (feed_splitLines (characters s) new eq_refl) as [H1 H2].
  rewrite whole_characters in H1, H2. rewrite append_splitLines.
  cbn [fst snd buffer]. now rewrite H1, H2.
Qed.

End LineBufferFacts.

(** C1. Chunking is transparent, and a line is returned only once its
    terminator has been seen. For a line buffer whose retained text holds
    no line feed (which is so for a fresh or cleared instance and after
    every [append]) and for every list of chunks: appending the chunks one
    by one returns, call after call, the same lines as one [append] of the
    whole text, and leaves the same retained text; the text seen so far is
    exactly the returned lines, each followed by a line feed, followed by
    the retained text; and neither a returned line nor the retained text
    holds a line feed. *)
Theorem append_chunking_transparent (lb : LineBuffer.t) (chunks : list string) :
  LineBuffer.noLF (LineBuffer.buffer lb) ->
  let piecewise := LineBuffer.feed lb chunks in
  let atOnce := LineBuffer.append lb (LineBuffer.whole chunks) in
  fst piecewise = fst atOnce
  /\ LineBuffer.buffer (snd piecewise) = LineBuffer.buffer (snd atOnce)
  /\ String.append (LineBuffer.buffer lb) (LineBuffer.whole chunks)
     = String.append (LineBuffer.terminated (fst piecewise))
                     (LineBuffer.buffer (snd piecewise))
  /\ Forall LineBuffer.noLF (fst piecewise)
  /\ LineBuffer.noLF (LineBuffer.buffer (snd piecewise)).
Proof.
  intros Hb piecewise atOnce.
  destruct (feed_splitLines chunks lb Hb) as [H1 H2].
  subst piecewise atOnce. rewrite append_splitLines. simpl.
  rewrite H1, H2. repeat split.
  - symmetry. apply splitLines_join.
  - apply splitLines_lines_noLF.
  - apply splitLines_tail_noLF.
Qed.

(** A stream cut after every character, at the first line feed, fed to a
    fresh buffer. *)
Lemma append_chunking_transparent_witness :
  let lf := String JsString.LF "" in
  let chunks := ["a"; lf; "b"; "c"; lf; "d"] in
  LineBuffer.noLF (LineBuffer.buffer LineBuffer.new)
  /\ fst (LineBuffer.feed LineBuffer.new chunks) = ["a"; "bc"]
  /\ fst (LineBuffer.feed LineBuffer.new chunks)
     = fst (LineBuffer.append LineBuffer.new (LineBuffer.whole chunks)).
Proof.
  split; [reflexivity|]. split; [reflexivity|].
  apply (append_chunking_transparent LineBuffer.new _ eq_refl).
Defined.

(** ** The decoder's record interpretation *)

Example keep_alive_line_ignored :
  StreamParser.parseAndEmitStreamChunk (host := Sample.host) ": keep-alive" Sample.start
  = (StreamParser.Normal tt, Sample.start).
Proof. reflexivity. Qed.

Example malformed_payload_dropped :
  StreamParser.parseAndEmitStreamChunk (host := Sample.host) "data: {oops" Sample.start
  = (StreamParser.Normal tt, Sample.start).
Proof. reflexivity. Qed.

Example two_calls_run :
  StreamParser.emitted
    (snd (StreamParser.parseAndEmitStreamChunk (host := Sample.host)
            "data: two-calls" Sample.start))
  = [StreamParser.ToolCalls
       [StreamParser.mkToolCall (Js.VStr "t1") (Js.VStr "search") (Js.VStr "{}")
                                Js.VUndefined;
        StreamParser.mkToolCall (Js.VStr "t2") (Js.VStr "fetch") (Js.VStr "{}")
                                Js.VUndefined]].
Proof. reflexivity. Qed.

(** A part that is [null] ends the interpretation of its record: the
    exception is caught, the event of the part before it stays. *)
Example null_part_caught :
  StreamParser.tryCatch
    (StreamParser.processRecord (host := Sample.host)
       (Sample.record [Sample.part_thought "a" Js.VUndefined; Js.VNull]
                      [("finishReason", Js.VStr "STOP")]))
    Sample.start
  = (StreamParser.Normal tt,
     StreamParser.withEvent (StreamParser.Reasoning (Js.VStr "a") Js.VNull)
                            Sample.start).
Proof. reflexivity. Qed.

Section StreamParserFacts.
Import JsString Js StreamParser.
Context {host : Host}.

(** *** Reading properties *)

(** A value with a defined property [k] is neither [null] nor
    [undefined], so reading any property of it succeeds. *)
Lemma get_of_defined (v : value) (k k' : string) :
  getOpt v k <> VUndefined -> get v k' = Some (getOpt v k').
Proof.
  unfold getOpt. destruct v; simpl; intros H; try reflexivity;
    now elim H.
Qed.

Lemma get_of_truthy (v : value) (k : string) :
  truthy v = true -> get v k = Some (getOpt v k).
Proof. unfold getOpt. destruct v; simpl; intros H; try reflexivity; discriminate. Qed.

Lemma getM_defined (v : value) (k k' : string) (w : world) :
  getOpt v k <> VUndefined -> getM v k' w = (Normal (getOpt v k'), w).
Proof. intros H. unfold getM. now rewrite (get_of_defined v k k' H). Qed.

Lemma getM_truthy (v : value) (k : string) (w : world) :
  truthy v = true -> getM v k w = (Normal (getOpt v k), w).
Proof. intros H. unfold getM. now rewrite (get_of_truthy v k H). Qed.

(** *** The world after one statement *)

(** A part flagged as thought: the signature is kept when valid, and one
    reasoning event is emitted. *)
Lemma handlePart_thought (part : value) (w : world) :
  getOpt part "thought" = VBool true ->
  let sig := getOpt part "thoughtSignature" in
  let w1 := if validSignature sig then withReasoningSignature sig w else w in
  handlePart part w
  = (Normal tt,
     withEvent (Reasoning (or (getOpt part "text") (VStr ""))
                          (or sig (or (reasoningSignature (st w1)) VNull)))
               w1).
Proof.
  intros Ht sig w1.
  assert (D : getOpt part "thought" <> VUndefined) by (rewrite Ht; discriminate).
  unfold handlePart, bind.
  rewrite (getM_defined _ _ "thought" w D), Ht.
  rewrite (getM_defined _ _ "thoughtSignature" w D).
  fold sig. unfold when.
  destruct (validSignature sig) eqn:V; subst w1; cbn beta iota.
  - unfold withReasoningSignature.
    destruct (setReasoningSignature sig w) as [c w1] eqn:E.
    unfold setReasoningSignature in E. injection E as <- E.
    rewrite (getM_defined _ _ "text" w1 D). reflexivity.
  - unfold ret. rewrite (getM_defined _ _ "text" w D). reflexivity.
Qed.

(** A part flagged as thought whose signature is falsy: the event carries
    the signature kept in the state. *)
Lemma handlePart_thought_unsigned (part : value) (w : world) :
  getOpt part "thought" = VBool true ->
  truthy (getOpt part "thoughtSignature") = false ->
  handlePart part w
  = (Normal tt,
     withEvent (Reasoning (or (getOpt part "text") (VStr ""))
                          (or (reasoningSignature (st w)) VNull))
               w).
Proof.
  intros Ht Hs. rewrite (handlePart_thought part w Ht).
  unfold validSignature, or. rewrite Hs. reflexivity.
Qed.

(** The closing step of a turn never raises; it emits the batch of
    pending tool calls, if any, then the usage summary, if any. *)
Lemma finishTurn_spec (response : value) (w : world) :
  exists w',
    finishTurn response w = (Normal tt, w')
    /\ emitted w' = emitted w ++ batchEvents w ++ usageEvents response
    /\ toolCalls (st w') = []
    /\ (cacheCalls w' = cacheCalls w
        /\ reasoningSignature (st w') = reasoningSignature (st w)).
Proof.
  destruct w as [[rs tcs sid mdl] pool ids cache em].
  unfold finishTurn, usageEvents, batchEvents, bind, getState, when.
  cbn [st toolCalls].
  destruct tcs as [|tc tcs]; cbn;
    destruct (truthy (getOpt response "usageMetadata")); cbn;
    eexists; repeat split; cbn;
    rewrite <- ?app_assoc, ?app_nil_r; reflexivity.
Qed.

(** *** C5: the per-line step *)

Lemma parseAndEmitStreamChunk_normal (line : string) (w : world) :
  fst (parseAndEmitStreamChunk line w) = Normal tt.
Proof.
  unfold parseAndEmitStreamChunk, tryCatch.
  destruct (startsWith line DATA_PREFIX); cbn; [|reflexivity].
  destruct (JSON_parse (payload line)) as [data|]; [|reflexivity].
  destruct (processRecord data w) as [[[]|] w']; reflexivity.
Qed.

Lemma parseLines_normal (lines : list string) :
  forall w : world, fst (parseLines lines w) = Normal tt.
Proof.
  induction lines as [|l ls IH]; intros w; [reflexivity|].
  unfold parseLines in *. cbn [forEach]. unfold bind.
  pose proof (parseAndEmitStreamChunk_normal l w) as N.
  destruct (parseAndEmitStreamChunk l w) as [c w1]. cbn in N. subst c.
  apply IH.
Qed.

(** *** C2: the signature of a turn's reasoning *)

Lemma validSignature_string (sig : string) :
  validSignature (VStr sig)
  = negb (sig =? "")%string
    && (MIN_SIGNATURE_LENGTH <=? Z.of_nat (String.length sig))%Z.
Proof. reflexivity. Qed.

Lemma skipn_length_app {A} (l l' : list A) :
  skipn (List.length l) (l ++ l') = l'.
Proof. induction l as [|x l IH]; [reflexivity | exact IH]. Qed.

Lemma emittedSince_app (w w' : world) (evs : list event) :
  emitted w' = emitted w ++ evs -> emittedSince w w' = evs.
Proof. unfold emittedSince. intros ->. apply skipn_length_app. Qed.

(** A record whose parts are an array has a [response]. *)
Lemma response_of_parts (data : value) (items : list value) :
  partsOf (getOpt data "response") = VArr items ->
  get data "response" = Some (getOpt data "response").
Proof.
  intros H. apply (get_of_defined data "response").
  intros U. rewrite U in H. discriminate.
Qed.

Lemma response_of_finish (data : value) :
  truthy (finishReasonOf (getOpt data "response")) = true ->
  get data "response" = Some (getOpt data "response").
Proof.
  intros H. apply (get_of_defined data "response").
  intros U. rewrite U in H. discriminate.
Qed.

Lemma no_reasoning_at_finish (w : world) (response : value) :
  filter isReasoning (batchEvents w ++ usageEvents response) = [].
Proof.
  unfold batchEvents, usageEvents.
  destruct (toolCalls (st w)); destruct (truthy (getOpt response "usageMetadata"));
    reflexivity.
Qed.

(** What follows the loop over the parts, lines 128-144. *)
Lemma after_parts (response : value) (w : world) :
  exists w',
    when (truthy (finishReasonOf response)) (finishTurn response) w
    = (Normal tt, w')
    /\ (exists tail, emitted w' = emitted w ++ tail
                     /\ filter isReasoning tail = [])
    /\ cacheCalls w' = cacheCalls w
    /\ reasoningSignature (st w') = reasoningSignature (st w).
Proof.
  unfold when. destruct (truthy (finishReasonOf response)).
  - destruct (finishTurn_spec response w) as (w' & E & Em & _ & Hc & Hr).
    exists w'. split; [exact E|]. split; [|split; assumption].
    eexists. split; [exact Em|]. apply no_reasoning_at_finish.
  - exists w. split; [reflexivity|]. split; [|split; reflexivity].
    exists []. now rewrite app_nil_r.
Qed.

(** *** C3: tool calls are buffered until the turn ends *)

Lemma not_thought_branch {A} (v : value) (a b : A) :
  v <> VBool true ->
  match v with VBool true => a | _ => b end = b.
Proof. destruct v as [| |[|]| | | |]; intros H; try reflexivity. now elim H. Qed.

Lemma convertToToolCall_spec (functionCall sid mdl : value) (w : world) :
  truthy functionCall = true ->
  exists tc w',
    convertToToolCall functionCall sid mdl w = (Normal tc, w')
    /\ st w' = st w
    /\ emitted w' = emitted w
    /\ cacheCalls w' = cacheCalls w
    /\ tc_name tc = restoredName sid mdl (getOpt functionCall "name")
    /\ tc_arguments tc = JSON_stringify (getOpt functionCall "args")
    /\ (truthy (getOpt functionCall "id") = true ->
        tc_id tc = getOpt functionCall "id")
    /\ tc_thoughtSignature tc = pooledSignature w.
Proof.
  intros Hf. destruct w as [s pool ids cache em].
  unfold convertToToolCall, bind, getToolCallObject, pooledSignature.
  cbn [toolCallPool].
  destruct pool as [|tc0 pool];
    rewrite !(getM_truthy functionCall _ _ Hf);
    destruct (truthy (getOpt functionCall "id")) eqn:Hid; cbn;
    rewrite !(getM_truthy functionCall _ _ Hf); cbn;
    do 2 eexists; (split; [reflexivity|]); cbn; repeat split; auto;
    discriminate.
Qed.

(** One invocation part: no event, one more pending tool call, and the
    signature cache is told only of a valid signature. *)
Lemma handlePart_invocation (part : value) (w : world) :
  invocationPart part ->
  exists tc w',
    handlePart part w = (Normal tt, w')
    /\ emitted w' = emitted w
    /\ toolCalls (st w') = toolCalls (st w) ++ [tc]
    /\ sessionId (st w') = sessionId (st w)
    /\ model (st w') = model (st w)
    /\ reasoningSignature (st w') = reasoningSignature (st w)
    /\ converted (sessionId (st w)) (model (st w)) part tc
    /\ (let sig := getOpt part "thoughtSignature" in
        if validSignature sig
        then tc_thoughtSignature tc = sig
             /\ cacheCalls w' = cacheCalls w ++ [(tc_id tc, sig)]
        else tc_thoughtSignature tc = pooledSignature w
             /\ cacheCalls w' = cacheCalls w).
Proof.
  intros (Hth & Htx & Hfc).
  assert (D : getOpt part "functionCall" <> VUndefined).
  { intros U. rewrite U in Hfc. discriminate. }
  unfold handlePart, bind at 1.
  rewrite (getM_defined _ _ "thought" w D).
  rewrite (not_thought_branch _ _ _ Hth).
  unfold bind at 1. rewrite (getM_defined _ _ "text" w D), Htx.
  unfold bind at 1. rewrite (getM_defined _ _ "functionCall" w D), Hfc.
  unfold bind at 1, getState at 1.
  destruct (convertToToolCall_spec (getOpt part "functionCall")
              (sessionId (st w)) (model (st w)) w Hfc)
    as (tc & w1 & E & Hst & Hem & Hca & Hn & Ha & Hi & Hp).
  unfold bind at 1. rewrite E.
  unfold bind at 1. rewrite (getM_defined _ _ "thoughtSignature" w1 D).
  destruct w1 as [s1 pool1 ids1 cache1 em1]. cbn in Hst, Hem, Hca. subst.
  destruct (validSignature (getOpt part "thoughtSignature")) eqn:V; cbn.
  - eexists; eexists; split; [reflexivity|]. cbn.
    repeat split; auto.
  - eexists; eexists; split; [reflexivity|]. cbn.
    repeat split; auto.
Qed.

Lemma forEach_invocations (sid mdl : value) (items : list value) :
  forall w : world,
    Forall invocationPart items ->
    sessionId (st w) = sid -> model (st w) = mdl ->
    exists tcs w',
      forEach handlePart items w = (Normal tt, w')
      /\ emitted w' = emitted w
      /\ toolCalls (st w') = toolCalls (st w) ++ tcs
      /\ sessionId (st w') = sid
      /\ model (st w') = mdl
      /\ Forall2 (converted sid mdl) items tcs.
Proof.
  induction items as [|p items IH]; intros w Hall Hs Hm.
  - exists [], w. cbn. rewrite app_nil_r. repeat split; auto.
  - inversion Hall as [|? ? Hp Hrest]; subst.
    destruct (handlePart_invocation p w Hp)
      as (tc & w1 & E & Hem & Htc & Hs1 & Hm1 & _ & Hconv & _).
    destruct (IH w1 Hrest Hs1 Hm1) as (tcs & w2 & E2 & Hem2 & Htc2 & Hs2 & Hm2 & Hc2).
    exists (tc :: tcs), w2. cbn [forEach]. unfold bind. rewrite E.
    split; [exact E2|]. repeat split; auto.
    + congruence.
    + rewrite Htc2, Htc, <- app_assoc. reflexivity.
Qed.

Lemma emitParts_invocations (sid mdl response : value) (w : world) :
  invocationsOnly response ->
  sessionId (st w) = sid -> model (st w) = mdl ->
  exists tcs w',
    emitParts response w = (Normal tt, w')
    /\ emitted w' = emitted w
    /\ toolCalls (st w') = toolCalls (st w) ++ tcs
    /\ sessionId (st w') = sid
    /\ model (st w') = mdl
    /\ Forall2 (converted sid mdl) (partsList response) tcs.
Proof.
  intros [Hshape Hall] Hs Hm. unfold emitParts, partsList in *.
  destruct Hshape as [Hf | [items Hi]].
  - rewrite Hf. exists [], w. rewrite app_nil_r.
    repeat split; auto.
    destruct (partsOf response); try constructor. discriminate.
  - rewrite Hi in *. cbn [truthy iterate].
    apply forEach_invocations; assumption.
Qed.

Lemma parse_dataLine (line : string) (response : value) (w : world) :
  dataLine line response ->
  parseAndEmitStreamChunk line w
  = tryCatch (emitParts response ;;;
              when (truthy (finishReasonOf response)) (finishTurn response)) w.
Proof.
  intros (Hpre & data & Hparse & Hresp).
  unfold parseAndEmitStreamChunk. rewrite Hpre, Hparse. cbn [negb].
  unfold tryCatch, processRecord, bind at 1, getM. rewrite Hresp. reflexivity.
Qed.

Lemma parseLines_pending (sid mdl : value) (recs : list (string * value)) :
  forall w : world,
    Forall pendingLine recs ->
    sessionId (st w) = sid -> model (st w) = mdl ->
    exists tcs w',
      parseLines (map fst recs) w = (Normal tt, w')
      /\ emitted w' = emitted w
      /\ toolCalls (st w') = toolCalls (st w) ++ tcs
      /\ sessionId (st w') = sid
      /\ model (st w') = mdl
      /\ Forall2 (converted sid mdl) (concat (map partsList (map snd recs))) tcs.
Proof.
  induction recs as [|[line response] recs IH]; intros w Hall Hs Hm.
  - exists [], w. cbn. rewrite app_nil_r. repeat split; auto.
  - inversion Hall as [|? ? (Hd & Hio & Hnf) Hrest]; subst. cbn in Hd, Hio, Hnf.
    destruct (emitParts_invocations _ _ response w Hio eq_refl eq_refl)
      as (tcs1 & w1 & E1 & Hem1 & Htc1 & Hs1 & Hm1 & Hc1).
    destruct (IH w1 Hrest Hs1 Hm1) as (tcs2 & w2 & E2 & Hem2 & Htc2 & Hs2 & Hm2 & Hc2).
    exists (tcs1 ++ tcs2), w2.
    unfold parseLines in *. cbn [map fst snd forEach concat].
    unfold bind at 1. rewrite (parse_dataLine line response w Hd).
    unfold tryCatch, bind at 1. rewrite E1, Hnf. cbn [when ret].
    split; [exact E2|]. repeat split; auto.
    + congruence.
    + rewrite Htc2, Htc1, <- app_assoc. reflexivity.
    + apply Forall2_app; assumption.
Qed.

Lemma forEach_app {A} (body : A -> M unit) (xs ys : list A) (w : world) :
  forEach body (xs ++ ys) w = (forEach body xs ;;; forEach body ys) w.
Proof.
  revert w. induction xs as [|x xs IH]; intros w; cbn [app forEach].
  - reflexivity.
  - unfold bind. destruct (body x w) as [[[]|] w1]; [|reflexivity].
    rewrite IH. reflexivity.
Qed.

(** The record that ends the turn, after [pending] tool calls have
    accumulated. *)
Lemma parse_finishing_line (line : string) (response : value) (w : world) :
  dataLine line response ->
  invocationsOnly response ->
  truthy (finishReasonOf response) = true ->
  exists tcs w',
    parseAndEmitStreamChunk line w = (Normal tt, w')
    /\ Forall2 (converted (sessionId (st w)) (model (st w)))
               (partsList response) tcs
    /\ emitted w'
       = emitted w
         ++ match toolCalls (st w) ++ tcs with
            | [] => []
            | all => [ToolCalls all]
            end
         ++ usageEvents response
    /\ toolCalls (st w') = [].
Proof.
  intros Hd Hio Hfin.
  destruct (emitParts_invocations _ _ response w Hio eq_refl eq_refl)
    as (tcs & w1 & E1 & Hem1 & Htc1 & _ & _ & Hc1).
  destruct (finishTurn_spec response w1) as (w2 & E2 & Hem2 & Htc2 & _).
  exists tcs, w2.
  rewrite (parse_dataLine line response w Hd).
  unfold tryCatch, bind at 1. rewrite E1, Hfin. cbn [when]. rewrite E2.
  split; [reflexivity|]. split; [exact Hc1|]. split; [|exact Htc2].
  rewrite Hem2, Hem1. unfold batchEvents. rewrite Htc1.
  destruct (toolCalls (st w) ++ tcs); reflexivity.
Qed.

(** *** C4: signatures below the threshold *)

(** Whatever the part, a signature that is not valid is neither passed
    to [cacheSignature] nor kept as the turn's reasoning signature, and
    a tool call accumulated for the part does not carry it. *)
Lemma handlePart_invalid_signature (part : value) (w : world) :
  validSignature (getOpt part "thoughtSignature") = false ->
  let w' := snd (handlePart part w) in
  cacheCalls w' = cacheCalls w
  /\ reasoningSignature (st w') = reasoningSignature (st w)
  /\ (toolCalls (st w') = toolCalls (st w)
      \/ exists tc, toolCalls (st w') = toolCalls (st w) ++ [tc]
                    /\ tc_thoughtSignature tc = pooledSignature w).
Proof.
  intros V w'. subst w'.
  remember (handlePart part w) as r eqn:R.
  destruct (get part "thought") as [thought|] eqn:G.
  2:{ unfold handlePart, bind, getM in R. rewrite G in R. subst r. cbn. auto. }
  assert (D : forall k, get part k = Some (getOpt part k)).
  { intros k. unfold getOpt. destruct part; try discriminate; reflexivity. }
  assert (Dm : forall k w0, getM part k w0 = (Normal (getOpt part k), w0)).
  { intros k w0. unfold getM. now rewrite D. }
  destruct (getOpt part "thought") as [| |[|]| | | |] eqn:T.
  3:{ (* flagged as thought *)
    rewrite (handlePart_thought part w T) in R. cbv zeta in R.
    rewrite V in R. subst r. cbn. auto. }
  all: destruct (getOpt part "text") eqn:X;
    try (unfold handlePart, bind, getM in R; rewrite !D, T, X in R;
         subst r; cbn; auto; fail);
    destruct (truthy (getOpt part "functionCall")) eqn:F;
    try (unfold handlePart, bind, getM in R; rewrite !D, T, X in R;
         subst r; cbn -[getOpt truthy]; rewrite F; cbn; auto; fail);
    assert (Inv : invocationPart part)
      by (unfold invocationPart; rewrite T, X, F; repeat split; (discriminate || reflexivity));
    destruct (handlePart_invocation part w Inv)
      as (tc & w1 & E & _ & Htc & _ & _ & Hr & _ & Hsig);
    cbv zeta in Hsig; rewrite V in Hsig; destruct Hsig as [Hs Hc];
    rewrite E in R; subst r; cbn [snd]; split; [exact Hc|]; split; [exact Hr|];
    right; exists tc; split; assumption.
Qed.

End StreamParserFacts.

(** C5. The per-line step never raises. For every line and every state of
    the decoder the call completes normally; a line without the
    ["data: "] prefix leaves everything as it was (no event, no change of
    state); so does a prefixed line whose payload [JSON.parse] rejects;
    a prefixed line whose payload parses leaves what the interpretation
    of the record had done up to its end or up to the exception that
    ended it; and the lines that follow are processed, again without
    raising. *)
Theorem parse_step_never_raises
  {host : StreamParser.Host} (line : string) (w : StreamParser.world) :
  fst (StreamParser.parseAndEmitStreamChunk line w) = StreamParser.Normal tt
  /\ snd (StreamParser.parseAndEmitStreamChunk line w)
     = (if JsString.startsWith line StreamParser.DATA_PREFIX then
          match StreamParser.JSON_parse (StreamParser.payload line) with
          | Some data => snd (StreamParser.processRecord data w)
          | None => w
          end
        else w)
  /\ forall more : list string,
       fst (StreamParser.parseLines (line :: more) w) = StreamParser.Normal tt.
Proof.
  split; [apply parseAndEmitStreamChunk_normal|]. split.
  - unfold StreamParser.parseAndEmitStreamChunk, StreamParser.tryCatch.
    destruct (JsString.startsWith line StreamParser.DATA_PREFIX); cbn;
      [|reflexivity].
    destruct (StreamParser.JSON_parse (StreamParser.payload line)) as [data|];
      [|reflexivity].
    destruct (StreamParser.processRecord data w) as [[[]|] w']; reflexivity.
  - intros more. apply parseLines_normal.
Qed.

(** C2. Signature propagation within a turn. For a line that carries a
    record whose parts are three parts flagged as thought, the first with a
    valid signature (a non-empty string of at least
    [MIN_SIGNATURE_LENGTH] characters), the other two with none: the
    reasoning events of the call are exactly three, in the order of the
    parts, and each carries the signature of the first part. *)
Theorem reasoning_signature_propagates
  {host : StreamParser.Host} (line : string) (data p1 p2 p3 : Js.value)
  (sig : string) (w : StreamParser.world) :
  JsString.startsWith line StreamParser.DATA_PREFIX = true ->
  StreamParser.JSON_parse (StreamParser.payload line) = Some data ->
  StreamParser.partsOf (Js.getOpt data "response") = Js.VArr [p1; p2; p3] ->
  Js.getOpt p1 "thought" = Js.VBool true ->
  Js.getOpt p2 "thought" = Js.VBool true ->
  Js.getOpt p3 "thought" = Js.VBool true ->
  Js.getOpt p1 "thoughtSignature" = Js.VStr sig ->
  sig <> ""%string ->
  (StreamParser.MIN_SIGNATURE_LENGTH <= Z.of_nat (String.length sig))%Z ->
  Js.truthy (Js.getOpt p2 "thoughtSignature") = false ->
  Js.truthy (Js.getOpt p3 "thoughtSignature") = false ->
  let w' := snd (StreamParser.parseAndEmitStreamChunk line w) in
  filter StreamParser.isReasoning (StreamParser.emittedSince w w')
  = [ StreamParser.Reasoning (Js.or (Js.getOpt p1 "text") (Js.VStr "")) (Js.VStr sig);
      StreamParser.Reasoning (Js.or (Js.getOpt p2 "text") (Js.VStr "")) (Js.VStr sig);
      StreamParser.Reasoning (Js.or (Js.getOpt p3 "text") (Js.VStr "")) (Js.VStr sig) ].
Proof.
  intros Hpre Hparse Hparts T1 T2 T3 S1 Hne Hlen S2 S3 w'.
  assert (V : StreamParser.validSignature (Js.VStr sig) = true).
  { rewrite validSignature_string. apply andb_true_iff. split.
    - apply negb_true_iff. now apply String.eqb_neq.
    - now apply Z.leb_le. }
  assert (Tr : Js.truthy (Js.VStr sig) = true).
  { cbn. apply negb_true_iff. now apply String.eqb_neq. }
  subst w'.
  unfold StreamParser.parseAndEmitStreamChunk, StreamParser.tryCatch.
  rewrite Hpre, Hparse. cbn [negb].
  unfold StreamParser.processRecord, StreamParser.bind at 1.
  unfold StreamParser.getM. rewrite (response_of_parts _ _ Hparts).
  cbn [StreamParser.ret].
  set (response := Js.getOpt data "response") in *.
  unfold StreamParser.bind, StreamParser.emitParts.
  rewrite Hparts. cbn [Js.truthy Js.iterate StreamParser.forEach].
  unfold StreamParser.bind.
  rewrite (handlePart_thought p1 w T1). rewrite S1, V.
  set (w1 := StreamParser.withEvent _ _).
  rewrite (handlePart_thought_unsigned p2 w1 T2 S2).
  set (w2 := StreamParser.withEvent _ w1).
  rewrite (handlePart_thought_unsigned p3 w2 T3 S3).
  set (w3 := StreamParser.withEvent _ w2).
  cbn [StreamParser.ret].
  destruct (after_parts response w3) as (w4 & E & (tail & Em & Hnr) & _).
  rewrite E. cbn [snd].
  erewrite emittedSince_app.
  2:{ rewrite Em. subst w3 w2 w1. cbn. rewrite <- !app_assoc. reflexivity. }
  cbn [app filter StreamParser.isReasoning]. rewrite Hnr.
  unfold Js.or. rewrite Tr. reflexivity.
Qed.

(** C3. Tool calls are batched. For a stream of data lines whose records
    hold only function-invocation parts, two in all ([f1] then [f2]), and
    of which the last, and only the last, carries a finish reason: starting
    with no pending tool call, the run emits exactly one tool-calls event,
    holding the conversions of [f1] and [f2] in this order, followed by the
    usage summary of the last record when it has one (at most one event),
    and nothing else; no tool call stays pending. *)
Theorem tool_calls_batched
  {host : StreamParser.Host} (recs : list (string * Js.value))
  (last : string) (lastR f1 f2 : Js.value) (w : StreamParser.world) :
  Forall StreamParser.pendingLine recs ->
  StreamParser.dataLine last lastR ->
  StreamParser.invocationsOnly lastR ->
  Js.truthy (StreamParser.finishReasonOf lastR) = true ->
  concat (map StreamParser.partsList (map snd recs ++ [lastR])) = [f1; f2] ->
  StreamParser.toolCalls (StreamParser.st w) = [] ->
  let w' := snd (StreamParser.parseLines (map fst recs ++ [last]) w) in
  let sid := StreamParser.sessionId (StreamParser.st w) in
  let mdl := StreamParser.model (StreamParser.st w) in
  exists tc1 tc2 : StreamParser.toolCall,
    StreamParser.emittedSince w w'
    = StreamParser.ToolCalls [tc1; tc2] :: StreamParser.usageEvents lastR
    /\ List.length (StreamParser.usageEvents lastR) <= 1
    /\ StreamParser.converted sid mdl f1 tc1
    /\ StreamParser.converted sid mdl f2 tc2
    /\ StreamParser.toolCalls (StreamParser.st w') = [].
Proof.
  intros Hrecs Hd Hio Hfin Hparts Hempty w' sid mdl.
  destruct (parseLines_pending sid mdl recs w Hrecs eq_refl eq_refl)
    as (tcs1 & w1 & E1 & Hem1 & Htc1 & Hs1 & Hm1 & Hc1).
  destruct (parse_finishing_line last lastR w1 Hd Hio Hfin)
    as (tcs2 & w2 & E2 & Hc2 & Hem2 & Htc2).
  rewrite Hs1, Hm1 in Hc2.
  assert (Hall : Forall2 (StreamParser.converted sid mdl) [f1; f2] (tcs1 ++ tcs2)).
  { rewrite <- Hparts, map_app, concat_app. cbn [map concat].
    rewrite app_nil_r. now apply Forall2_app. }
  inversion Hall as [|? tc1 ? rest1 C1 Hall1 Ef Et]; subst.
  inversion Hall1 as [|? tc2 ? rest2 C2 Hall2 Ef' Et']; subst.
  inversion Hall2; subst.
  exists tc1, tc2.
  assert (Run : StreamParser.parseLines (map fst recs ++ [last]) w
                = (StreamParser.Normal tt, w2)).
  { unfold StreamParser.parseLines in *. rewrite forEach_app.
    unfold StreamParser.bind at 1. rewrite E1.
    cbn [StreamParser.forEach]. unfold StreamParser.bind. rewrite E2.
    reflexivity. }
  subst w'. rewrite Run. cbn [snd].
  split.
  - apply emittedSince_app. rewrite Hem2, Hem1, Htc1, Hempty. cbn [app].
    rewrite <- Et. reflexivity.
  - split.
    + unfold StreamParser.usageEvents.
      destruct (Js.truthy (Js.getOpt lastR "usageMetadata")); cbn [List.length]; lia.
    + split; [exact C1|]. split; [exact C2 | exact Htc2].
Qed.

Lemma reasoning_signature_propagates_witness :
  let w' := snd (StreamParser.parseAndEmitStreamChunk
                   (host := Sample.host) "data: three-thoughts" Sample.start) in
  filter StreamParser.isReasoning (StreamParser.emittedSince Sample.start w')
  = [ StreamParser.Reasoning (Js.VStr "a") (Js.VStr "sig-0001");
      StreamParser.Reasoning (Js.VStr "b") (Js.VStr "sig-0001");
      StreamParser.Reasoning (Js.VStr "c") (Js.VStr "sig-0001") ].
Proof.
  apply (reasoning_signature_propagates (host := Sample.host)
           "data: three-thoughts" Sample.threeThoughts
           (Sample.part_thought "a" (Js.VStr "sig-0001"))
           (Sample.part_thought "b" Js.VUndefined)
           (Sample.part_thought "c" Js.VUndefined)
           "sig-0001" Sample.start);
    try reflexivity; [discriminate | vm_compute; discriminate].
Defined.

Lemma tool_calls_batched_witness :
  let w' := snd (StreamParser.parseLines
                   (host := Sample.host) ["data: two-calls"] Sample.start) in
  exists tc1 tc2 : StreamParser.toolCall,
    StreamParser.emittedSince Sample.start w' = [StreamParser.ToolCalls [tc1; tc2]]
    /\ StreamParser.tc_id tc1 = Js.VStr "t1"
    /\ StreamParser.tc_id tc2 = Js.VStr "t2".
Proof.
  destruct (tool_calls_batched (host := Sample.host) []
              "data: two-calls"
              (Js.getOpt Sample.twoCalls "response")
              (Sample.part_call "t1" "search") (Sample.part_call "t2" "fetch")
              Sample.start)
    as (tc1 & tc2 & E & _ & (_ & _ & I1) & (_ & _ & I2) & _).
  - constructor.
  - split; [reflexivity|]. exists Sample.twoCalls. split; reflexivity.
  - split.
    + right. eexists. reflexivity.
    + repeat constructor; discriminate.
  - reflexivity.
  - reflexivity.
  - reflexivity.
  - exists tc1, tc2. split; [exact E|].
    split; [apply I1 | apply I2]; reflexivity.
Defined.

(** What does hold of a token below the threshold. For every part and
    every state of the decoder, a signature token that is a string
    shorter than [MIN_SIGNATURE_LENGTH] is not passed to
    [cacheSignature], does not become the turn's reasoning signature, and
    is not written on the tool call accumulated for the part (the tool
    call keeps what the pooled object came with). *)
Lemma short_signature_not_kept
  {host : StreamParser.Host} (part : Js.value) (sig : string)
  (w : StreamParser.world) :
  Js.getOpt part "thoughtSignature" = Js.VStr sig ->
  (Z.of_nat (String.length sig) < StreamParser.MIN_SIGNATURE_LENGTH)%Z ->
  let w' := snd (StreamParser.handlePart part w) in
  StreamParser.cacheCalls w' = StreamParser.cacheCalls w
  /\ StreamParser.reasoningSignature (StreamParser.st w')
     = StreamParser.reasoningSignature (StreamParser.st w)
  /\ (StreamParser.toolCalls (StreamParser.st w')
      = StreamParser.toolCalls (StreamParser.st w)
      \/ exists tc,
           StreamParser.toolCalls (StreamParser.st w')
           = StreamParser.toolCalls (StreamParser.st w) ++ [tc]
           /\ StreamParser.tc_thoughtSignature tc = StreamParser.pooledSignature w).
Proof.
  intros S Hlen w'.
  assert (V : StreamParser.validSignature (Js.getOpt part "thoughtSignature") = false).
  { rewrite S, validSignature_string. apply andb_false_iff. right.
    now apply Z.leb_gt. }
  exact (handlePart_invalid_signature part w V).
Qed.

(** With a threshold of four characters, the record whose one part is
    flagged as thought and signed ["abc"] gives rise to a reasoning event
    that carries ["abc"]. *)
Lemma short_signature_on_event :
  let w' := snd (StreamParser.parseAndEmitStreamChunk
                   (host := Sample.host) "data: short-signature" Sample.start) in
  (Z.of_nat (String.length "abc")
   < StreamParser.MIN_SIGNATURE_LENGTH (Host := Sample.host))%Z
  /\ StreamParser.emittedSince Sample.start w'
     = [ StreamParser.Reasoning (Js.VStr "x") (Js.VStr "abc") ].
Proof. split; reflexivity. Qed.

(** C4 (the code departs from the claim). A part flagged as thought
    whose signature token is a non-empty string shorter than
    [MIN_SIGNATURE_LENGTH] gives one reasoning event, and the event
    carries that token: line 109 attaches [part.thoughtSignature] without
    the length test that line 103 applies and that the tool-call path
    (lines 117-118) attaches under. This is so whatever reasoning
    signature the state carries, a valid one included, which the short
    token displaces on the event; the state itself is left as it was. *)
Theorem short_signature_reaches_event
  {host : StreamParser.Host} (part : Js.value) (sig : string)
  (w : StreamParser.world) :
  Js.getOpt part "thought" = Js.VBool true ->
  Js.getOpt part "thoughtSignature" = Js.VStr sig ->
  sig <> ""%string ->
  (Z.of_nat (String.length sig) < StreamParser.MIN_SIGNATURE_LENGTH)%Z ->
  StreamParser.handlePart part w
  = (StreamParser.Normal tt,
     StreamParser.withEvent
       (StreamParser.Reasoning (Js.or (Js.getOpt part "text") (Js.VStr ""))
                               (Js.VStr sig))
       w).
Proof.
  intros T S Hne Hlen.
  assert (V : StreamParser.validSignature (Js.getOpt part "thoughtSignature") = false).
  { rewrite S, validSignature_string. apply andb_false_iff. right.
    now apply Z.leb_gt. }
  rewrite (handlePart_thought part w T). cbv zeta. rewrite V, S.
  destruct sig as [|c sig]; [now elim Hne | reflexivity].
Qed.

Lemma short_signature_reaches_event_witness :
  let carried :=
    StreamParser.withReasoningSignature (Js.VStr "sig-0001") Sample.start in
  StreamParser.validSignature (host := Sample.host) (Js.VStr "sig-0001") = true
  /\ StreamParser.handlePart (host := Sample.host)
       (Sample.part_thought "x" (Js.VStr "abc")) carried
     = (StreamParser.Normal tt,
        StreamParser.withEvent
          (StreamParser.Reasoning (Js.VStr "x") (Js.VStr "abc")) carried)
  /\ StreamParser.handlePart (host := Sample.host)
       (Sample.part_thought "x" Js.VUndefined) carried
     = (StreamParser.Normal tt,
        StreamParser.withEvent
          (StreamParser.Reasoning (Js.VStr "x") (Js.VStr "sig-0001")) carried).
Proof.
  split; [reflexivity|]. split; [|reflexivity].
  apply (short_signature_reaches_event (host := Sample.host)
           (Sample.part_thought "x" (Js.VStr "abc")) "abc"
           (StreamParser.withReasoningSignature (Js.VStr "sig-0001") Sample.start));
    [reflexivity | reflexivity | discriminate | reflexivity].
Defined.

(** ** The Claude request converter *)

Example family_claude :
  ClaudeConverter.getModelFamily "Claude-Sonnet-4-5-thinking" = ClaudeConverter.Claude.
Proof. reflexivity. Qed.

Example thinking_models :
  map ClaudeConverter.isThinkingModel
      ["claude-sonnet-4-5-thinking"; "claude-opus-4-5"; "gemini-2.5-flash";
       "gemini-2.5-flash-thinking"; "gemini-3-pro-high"; "models/gemini-12"; "gpt-oss"]
  = [true; false; false; true; true; true; false].
Proof. reflexivity. Qed.

Section ClaudeConverterFacts.
Import ClaudeConverter.
Context {imports : Imports}.

(** *** The store *)

Lemma read_old (h fresh : heap) (l : loc) :
  l < List.length h -> read (h ++ fresh) l = read h l.
Proof. intros H. unfold read. now apply app_nth1. Qed.

Lemma read_new (h : heap) (a : list ContentBlock) :
  read (h ++ [a]) (List.length h) = a.
Proof. unfold read. apply nth_middle. Qed.

Lemma update_last (h : heap) (a b : list ContentBlock) :
  update (List.length h) b (h ++ [a]) = h ++ [b].
Proof. induction h as [|x h IH]; cbn; [reflexivity | now rewrite IH]. Qed.

Lemma extends_refl (h : heap) : extends h h.
Proof. exists []. now rewrite app_nil_r. Qed.

Lemma extends_trans (h1 h2 h3 : heap) :
  extends h1 h2 -> extends h2 h3 -> extends h1 h3.
Proof. intros [f1 ->] [f2 ->]. exists (f1 ++ f2). now rewrite app_assoc. Qed.

Lemma extends_alloc (h : heap) (a : list ContentBlock) : extends h (h ++ [a]).
Proof. now exists [a]. Qed.

Lemma extends_length (h h' : heap) : extends h h' -> List.length h <= List.length h'.
Proof. intros [f ->]. rewrite length_app. lia. Qed.

Lemma extends_read (h h' : heap) (l : loc) :
  extends h h' -> l < List.length h -> read h' l = read h l.
Proof. intros [f ->]. apply read_old. Qed.

Lemma length_update (l : loc) (a : list ContentBlock) (h : heap) :
  List.length (update l a h) = List.length h.
Proof.
  revert l. induction h as [|x h IH]; intros [|l]; cbn; try reflexivity.
  now rewrite IH.
Qed.

Lemma read_update_same (l : loc) (a : list ContentBlock) (h : heap) :
  l < List.length h -> read (update l a h) l = a.
Proof.
  unfold read. revert l. induction h as [|x h IH]; intros [|l] H; cbn in *;
    try lia; [reflexivity|]. apply IH. lia.
Qed.

Lemma read_update_other (l l' : loc) (a : list ContentBlock) (h : heap) :
  l <> l' -> read (update l a h) l' = read h l'.
Proof.
  unfold read. revert l l'.
  induction h as [|x h IH]; intros [|l] [|l'] H; cbn; try reflexivity.
  - now elim H.
  - apply IH. congruence.
Qed.

Lemma grows_refl (h : heap) : grows h h.
Proof. split; [lia|]. intros l _. exists []. now rewrite app_nil_r. Qed.

Lemma grows_trans (h1 h2 h3 : heap) : grows h1 h2 -> grows h2 h3 -> grows h1 h3.
Proof.
  intros [L1 R1] [L2 R2]. split; [lia|]. intros l Hl.
  destruct (R1 l Hl) as [p1 E1]. destruct (R2 l ltac:(lia)) as [p2 E2].
  exists (p1 ++ p2). now rewrite E2, E1, app_assoc.
Qed.

Lemma extends_grows (h h' : heap) : extends h h' -> grows h h'.
Proof.
  intros E. split; [now apply extends_length|]. intros l Hl.
  exists []. now rewrite app_nil_r, (extends_read _ _ _ E Hl).
Qed.

(** [arr.push(b)] adds to one array and leaves the others. *)
Lemma grows_push (l : loc) (b : ContentBlock) (h : heap) :
  grows h (snd (push l b h)).
Proof.
  unfold push. cbn [snd]. split; [rewrite length_update; lia|].
  intros l' Hl'. destruct (Nat.eq_dec l l') as [<-|N].
  - exists [b]. now apply read_update_same.
  - exists []. now rewrite app_nil_r, read_update_other.
Qed.

Lemma filled_grows (h h' : heap) (c : googleContent) :
  grows h h' -> filled h c -> filled h' c.
Proof.
  intros [L R] [Hl Hr]. split; [lia|].
  destruct (R _ Hl) as [pushed E]. rewrite E.
  destruct (read h (gc_parts c)); [now elim Hr | discriminate].
Qed.

(** *** One message *)

(** Lines 180-191: whatever array the conversion yields, the entry made
    of it has a part, the placeholder when the conversion left none;
    the other arrays are as they were. *)
Lemma convert_with_placeholder (c : content) (isC isG : bool) (role' : string)
      (h : heap) :
  exists parts h',
    (parts <- convertContentToParts c isC isG ;;
     n <- lengthOf parts ;;
     (if (n =? 0)%nat then push parts (Text "") else ret tt) ;;;
     ret (mkContent role' parts)) h
    = (mkContent role' parts, h')
    /\ grows h h'
    /\ filled h' (mkContent role' parts).
Proof.
  pose proof (convertContentToParts_pure c isC isG h) as P.
  pose proof (convertContentToParts_array c isC isG h) as A.
  unfold bind, lengthOf, ret.
  destruct (convertContentToParts c isC isG h) as [parts h1]. cbn [fst snd] in P, A.
  destruct (read h1 parts) as [|b bs] eqn:R; cbn [List.length Nat.eqb].
  - exists parts, (snd (push parts (Text "") h1)).
    split; [reflexivity|]. split.
    + eapply grows_trans; [apply extends_grows, P | apply grows_push].
    + unfold filled, push. cbn [gc_parts snd].
      rewrite length_update. split; [exact A|].
      rewrite (read_update_same _ _ _ A), R. discriminate.
  - exists parts, h1. split; [reflexivity|]. split; [now apply extends_grows|].
    unfold filled. cbn [gc_parts]. split; [exact A|]. rewrite R. discriminate.
Qed.

Lemma convertMessage_spec (isC isG : bool) (msg : message) (h : heap) :
  exists parts h',
    convertMessage isC isG msg h = (mkContent (convertRole (role msg)) parts, h')
    /\ grows h h'
    /\ filled h' (mkContent (convertRole (role msg)) parts).
Proof.
  unfold convertMessage.
  destruct (msgContent msg) as [s | l].
  - unfold bind at 1, ret at 1.
    apply convert_with_placeholder.
  - destruct (isAssistant msg).
    + unfold bind at 1.
      unfold restoreThinkingSignatures, removeTrailingThinkingBlocks,
        reorderAssistantContent, bind at 1 2 3, alloc, ret at 1.
      set (r1 := restoredBlocks (read h l)).
      set (h1 := h ++ [r1]).
      set (r2 := prunedBlocks (read h1 (List.length h))).
      set (h2 := h1 ++ [r2]).
      set (r3 := reorderedBlocks (read h2 (List.length h1))).
      destruct (convert_with_placeholder (BlockArray (List.length h2)) isC isG
                  (convertRole (role msg)) (h2 ++ [r3]))
        as (parts & h' & E & G & F).
      exists parts, h'. split; [exact E|]. split; [|exact F].
      eapply grows_trans; [|exact G]. apply extends_grows.
      exists [r1; r2; r3]. subst h2 h1. now rewrite <- !app_assoc.
    + unfold bind at 1, ret at 1.
      apply convert_with_placeholder.
Qed.

(** *** The loop and the final filter *)

Lemma convertMessages_spec (isC isG : bool) (msgs : list message) :
  forall h : heap,
  exists contents h',
    convertMessages isC isG msgs h = (contents, h')
    /\ grows h h'
    /\ Forall (filled h') contents
    /\ map gc_role contents = map (fun m => convertRole (role m)) msgs.
Proof.
  unfold convertMessages.
  induction msgs as [|m msgs IH]; intros h.
  - exists [], h. cbn. split; [reflexivity|]. split; [apply grows_refl|].
    split; [constructor | reflexivity].
  - destruct (convertMessage_spec isC isG m h) as (parts & h1 & E1 & G1 & F1).
    destruct (IH h1) as (cs & h2 & E2 & G2 & F2 & R2).
    exists (mkContent (convertRole (role m)) parts :: cs), h2.
    cbn [mapM]. unfold bind at 1. rewrite E1.
    unfold bind at 1. rewrite E2. unfold ret.
    split; [reflexivity|]. split; [eapply grows_trans; eassumption|].
    split.
    + constructor; [now apply (filled_grows h1) | exact F2].
    + cbn [map gc_role]. now rewrite R2.
Qed.

Lemma filled_valid (h : heap) (contents : list googleContent) :
  Forall (filled h) contents ->
  Forall (fun c => gc_parts c < List.length h) contents.
Proof. intros F. eapply Forall_impl; [|exact F]. now intros c [Hc _]. Qed.

Lemma filteredFrom_earlier (h h1 h2 : heap) (cs cs' : list googleContent) :
  extends h h1 ->
  Forall (fun c => gc_parts c < List.length h) cs ->
  Forall2 (filteredFrom h1 h2) cs cs' ->
  Forall2 (filteredFrom h h2) cs cs'.
Proof.
  intros X Hv F. induction F as [|c c' cs cs' (Hr & Hl & Hread) F IH].
  - constructor.
  - inversion Hv as [|? ? Hc Hcs]; subst. constructor; [|now apply IH].
    split; [exact Hr|]. split; [pose proof (extends_length _ _ X); lia|].
    rewrite Hread. now rewrite (extends_read _ _ _ X Hc).
Qed.

Lemma filterUnsignedThinkingBlocks_spec (contents : list googleContent) :
  forall h : heap,
    Forall (fun c => gc_parts c < List.length h) contents ->
    exists contents' h',
      filterUnsignedThinkingBlocks contents h = (contents', h')
      /\ extends h h'
      /\ Forall2 (filteredFrom h h') contents contents'.
Proof.
  unfold filterUnsignedThinkingBlocks.
  induction contents as [|c cs IH]; intros h Hv.
  - exists [], h. cbn. repeat split; [apply extends_refl | constructor].
  - inversion Hv as [|? ? Hc Hcs]; subst.
    set (h1 := h ++ [signedOnly (read h (gc_parts c))]).
    assert (X1 : extends h h1) by apply extends_alloc.
    destruct (IH h1) as (cs' & h2 & E2 & X2 & F2).
    { eapply Forall_impl; [|exact Hcs]. cbn. intros a Ha.
      pose proof (extends_length _ _ X1). lia. }
    exists (mkContent (gc_role c) (List.length h) :: cs'), h2.
    cbn [mapM]. unfold bind at 1. unfold alloc at 1.
    fold (signedOnly (read h (gc_parts c))). fold h1.
    unfold bind at 1. rewrite E2. unfold ret.
    split; [reflexivity|]. split; [eapply extends_trans; eassumption|].
    constructor.
    + split; [reflexivity|]. cbn [gc_parts].
      pose proof (extends_length _ _ X2) as L2.
      assert (L1 : List.length h1 = S (List.length h))
        by (subst h1; rewrite length_app; cbn; lia).
      split; [lia|].
      rewrite (extends_read _ _ _ X2) by lia. subst h1. apply read_new.
    + now apply (filteredFrom_earlier h h1 h2).
Qed.

Lemma signedOnly_signed (bs : list ContentBlock) :
  Forall (fun b => unsignedThinking b = false) (signedOnly bs).
Proof.
  apply Forall_forall. intros b Hb. apply filter_In in Hb.
  destruct Hb as [_ Hb]. now apply negb_true_iff in Hb.
Qed.

(** *** The whole conversion *)

(** The request for a target of the Claude family: no recovery, the
    loop, then the filter. *)
Lemma generate_claude (msgs : list message) (modelName : string) (h : heap) :
  isClaudeModel modelName = true ->
  generateClaudeRequestBody msgs modelName h
  = (contents <- convertMessages true false msgs ;;
     filterUnsignedThinkingBlocks contents) h.
Proof.
  intros HC.
  assert (HG : isGeminiModel modelName = false).
  { unfold isClaudeModel in HC. unfold isGeminiModel.
    now destruct (getModelFamily modelName). }
  unfold generateClaudeRequestBody, processedMessages, recoveryApplies.
  rewrite HC, HG. reflexivity.
Qed.

(** The request for any other target: the recovery step when it
    applies, and the loop. *)
Lemma generate_other (msgs : list message) (modelName : string) (h : heap) :
  isClaudeModel modelName = false ->
  generateClaudeRequestBody msgs modelName h
  = (processed <- processedMessages modelName msgs ;;
     convertMessages false (isGeminiModel modelName) processed) h.
Proof.
  intros HC. unfold generateClaudeRequestBody. rewrite HC.
  unfold bind, ret. destruct (processedMessages modelName msgs h) as [pm h0].
  destruct (convertMessages _ _ _ h0). reflexivity.
Qed.

Lemma partsIn_filtered (h h' : heap) (cs cs' : list googleContent) :
  Forall2 (filteredFrom h h') cs cs' ->
  partsIn h' cs' = map signedOnly (partsIn h cs).
Proof.
  unfold partsIn.
  intros F. induction F as [|c c' cs cs' (_ & _ & Hread) F IH]; cbn [map].
  - reflexivity.
  - now rewrite Hread, IH.
Qed.

(** The request for a Claude target, step by step. *)
Lemma generate_claude_spec (msgs : list message) (modelName : string) (h : heap) :
  isClaudeModel modelName = true ->
  exists loopContents h1 contents h',
    convertMessages true false msgs h = (loopContents, h1)
    /\ generateClaudeRequestBody msgs modelName h = (contents, h')
    /\ Forall (filled h1) loopContents
    /\ Forall2 (filteredFrom h1 h') loopContents contents.
Proof.
  intros HC. rewrite (generate_claude msgs modelName h HC).
  destruct (convertMessages_spec true false msgs h) as (cs & h1 & E1 & _ & F1 & _).
  destruct (filterUnsignedThinkingBlocks_spec cs h1 (filled_valid _ _ F1))
    as (cs' & h2 & E2 & X2 & F2).
  exists cs, h1, cs', h2. unfold bind. rewrite E1, E2. repeat split; assumption.
Qed.

Lemma isClaudeModel_family (modelName : string) :
  getModelFamily modelName = Claude -> isClaudeModel modelName = true.
Proof. unfold isClaudeModel. now intros ->. Qed.

(** Every entry the loop appends has a part (lines 183-186), and for a
    target outside the Claude family these are the entries of the
    request. *)
Lemma loop_contents_filled (isC isG : bool) (msgs : list message) (h : heap) :
  let '(contents, h') := convertMessages isC isG msgs h in
  Forall (fun parts => parts <> []) (partsIn h' contents).
Proof.
  destruct (convertMessages_spec isC isG msgs h) as (cs & h1 & E & _ & F & _).
  rewrite E. unfold partsIn. apply Forall_map.
  eapply Forall_impl; [|exact F]. now intros c [_ Hc].
Qed.

End ClaudeConverterFacts.

(** C7. The final filter for Claude targets. When the model is of the
    Claude family, the entries of the request are the entries the loop
    built (after restoration, pruning and reordering), each without its
    unsigned [Thinking] blocks and otherwise as it was; so no part of the
    request is an unsigned [Thinking] block, wherever it stood. *)
Theorem claude_request_without_unsigned_thinking
  {imports : ClaudeConverter.Imports} (msgs : list ClaudeConverter.message)
  (modelName : string) (h : ClaudeConverter.heap) :
  ClaudeConverter.getModelFamily modelName = ClaudeConverter.Claude ->
  let '(loopContents, h1) := ClaudeConverter.convertMessages true false msgs h in
  let '(contents, h') := ClaudeConverter.generateClaudeRequestBody msgs modelName h in
  ClaudeConverter.partsIn h' contents
  = map ClaudeConverter.signedOnly (ClaudeConverter.partsIn h1 loopContents)
  /\ Forall (Forall (fun b => ClaudeConverter.unsignedThinking b = false))
            (ClaudeConverter.partsIn h' contents).
Proof.
  intros HF.
  destruct (generate_claude_spec msgs modelName h (isClaudeModel_family _ HF))
    as (cs & h1 & cs' & h2 & E1 & E2 & _ & F).
  rewrite E1, E2. rewrite (partsIn_filtered _ _ _ _ F). split; [reflexivity|].
  apply Forall_map. apply Forall_forall. intros bs _. apply signedOnly_signed.
Qed.

Lemma claude_request_without_unsigned_thinking_witness :
  let '(contents, h') :=
    ClaudeConverter.generateClaudeRequestBody
      (imports := SampleConversation.imports)
      [SampleConversation.userThinking; SampleConversation.assistantTurn]
      "claude-opus-4-5" SampleConversation.store in
  Forall (Forall (fun b => ClaudeConverter.unsignedThinking
                            (imports := SampleConversation.imports) b = false))
         (ClaudeConverter.partsIn h' contents).
Proof.
  exact (proj2 (claude_request_without_unsigned_thinking
                  (imports := SampleConversation.imports)
                  [SampleConversation.userThinking; SampleConversation.assistantTurn]
                  "claude-opus-4-5" SampleConversation.store eq_refl)).
Defined.

(* ================================================================== *)
(** * Part III: further properties of the code *)
(* ================================================================== *)

(** ** The line buffer and its pool *)

Section LineBufferMore.
Import JsString LineBuffer Text.

Local Notation "s +++ t" := (String.append s t)
  (at level 60, right associativity).

Lemma countLF_app (a b : string) : countLF (a +++ b) = countLF a + countLF b.
Proof.
  induction a as [|c a IH]; cbn; [reflexivity|]. rewrite IH. lia.
Qed.

Lemma countLF_noLF (s : string) : noLF s -> countLF s = 0.
Proof.
  unfold noLF. induction s as [|c s IH]; cbn; intros H; [reflexivity|].
  destruct (Ascii.eqb c LF); [discriminate|].
  destruct (indexOf s LF 0) eqn:K; [discriminate|]. now rewrite IH.
Qed.

Lemma splitLines_count (s : string) :
  List.length (fst (splitLines s)) = countLF s.
Proof.
  induction s as [|c s IH]; cbn; [reflexivity|].
  destruct (splitLines s) as [ls r]. cbn in IH.
  destruct (Ascii.eqb c LF); cbn; [now rewrite IH|].
  destruct ls; cbn in *; exact IH.
Qed.

Lemma noLF_app (a b : string) : noLF a -> noLF b -> noLF (a +++ b).
Proof.
  unfold noLF. intros Ha Hb. rewrite (indexOf_app_none a b LF Ha), Hb.
  reflexivity.
Qed.

Lemma splitLines_terminated_text (s : string) :
  snd (splitLines (s +++ String LF "")) = ""
  /\ fst (splitLines (s +++ String LF "")) <> [].
Proof.
  induction s as [|c s [IH1 IH2]]; cbn.
  - split; [reflexivity | discriminate].
  - destruct (splitLines (s +++ String LF "")) as [ls r]. cbn in IH1, IH2.
    destruct (Ascii.eqb c LF); cbn; [split; [exact IH1 | discriminate]|].
    destruct ls as [|l ls]; [now elim IH2|]. cbn.
    split; [exact IH1 | discriminate].
Qed.

Lemma run_bounded (ops : list Pools.poolOp) (bound : Z) :
  forall pool : Pools.linePool,
    Forall (Pools.boundedBy bound) ops ->
    (Z.of_nat (List.length pool) <= bound)%Z ->
    (Z.of_nat (List.length (Pools.run ops pool)) <= bound)%Z.
Proof.
  unfold Pools.run.
  induction ops as [|op ops IH]; intros pool Hb Hp; [exact Hp|].
  inversion Hb as [|? ? Hop Hops]; subst. cbn [fold_left]. apply IH; [exact Hops|].
  destruct op as [|maxSize buffer]; cbn.
  - destruct pool as [|b pool]; cbn in *; lia.
  - unfold Pools.releaseLineBuffer.
    destruct (Z.ltb_spec (Z.of_nat (List.length pool)) maxSize) as [Hlt|Hge];
      cbn [List.length] in *; cbn in Hop; lia.
Qed.

Lemma splitLines_app (x rest : string) :
  splitLines (x +++ rest)
  = (fst (splitLines x) ++ fst (splitLines (snd (splitLines x) +++ rest)),
     snd (splitLines (snd (splitLines x) +++ rest))).
Proof.
  rewrite <- (splitLines_join x) at 1. rewrite str_app_assoc.
  rewrite <- (splitLines_join (snd (splitLines x) +++ rest)) at 1.
  rewrite <- str_app_assoc, <- terminated_app.
  apply splitLines_unique.
  - apply Forall_app. split; apply splitLines_lines_noLF.
  - apply splitLines_tail_noLF.
Qed.

(** Appending a text in two pieces. *)
Lemma append_in_two (lb : t) (c rest : string) :
  fst (append lb (c +++ rest))
  = fst (append lb c) ++ fst (append (snd (append lb c)) rest).
Proof.
  rewrite !append_splitLines. cbn [fst snd buffer].
  rewrite <- str_app_assoc, splitLines_app. reflexivity.
Qed.

End LineBufferMore.

(** X1. A call of [append] on a buffer whose retained text holds no line
    feed returns as many lines as the chunk holds line feeds: no line is
    dropped, empty lines included, and none is made up. *)
Theorem append_returns_one_line_per_line_feed
  (lb : LineBuffer.t) (chunk : string) :
  LineBuffer.noLF (LineBuffer.buffer lb) ->
  List.length (fst (LineBuffer.append lb chunk)) = Text.countLF chunk.
Proof.
  intros Hb. rewrite append_splitLines. cbn [fst].
  rewrite splitLines_count, countLF_app, (countLF_noLF _ Hb). reflexivity.
Qed.

Lemma append_returns_one_line_per_line_feed_witness :
  let lf := String JsString.LF "" in
  List.length (fst (LineBuffer.append (LineBuffer.mk "ab" [])
                                      ("c" ++ lf ++ lf ++ "d")%string)) = 2.
Proof.
  exact (append_returns_one_line_per_line_feed (LineBuffer.mk "ab" []) _ eq_refl).
Defined.

(** X2. A chunk without a line feed returns no line and is kept whole
    after what was retained. *)
Theorem append_keeps_unterminated_chunk (lb : LineBuffer.t) (chunk : string) :
  LineBuffer.noLF (LineBuffer.buffer lb) ->
  LineBuffer.noLF chunk ->
  LineBuffer.append lb chunk
  = ([], LineBuffer.mk (String.append (LineBuffer.buffer lb) chunk) []).
Proof.
  intros Hb Hc. rewrite append_splitLines.
  now rewrite (splitLines_noLF _ (noLF_app _ _ Hb Hc)).
Qed.

Lemma append_keeps_unterminated_chunk_witness :
  LineBuffer.append (LineBuffer.mk "data: {" []) "x"
  = ([], LineBuffer.mk "data: {x" []).
Proof.
  exact (append_keeps_unterminated_chunk (LineBuffer.mk "data: {" []) "x"
           eq_refl eq_refl).
Defined.

(** X3. After a chunk that ends in a line feed nothing is retained, and
    at least one line is returned, whatever the buffer held. *)
Theorem append_of_terminated_chunk_retains_nothing
  (lb : LineBuffer.t) (text : string) :
  let '(lines, lb') :=
    LineBuffer.append lb (String.append text (String JsString.LF "")) in
  LineBuffer.buffer lb' = ""%string /\ lines <> [].
Proof.
  rewrite append_splitLines. cbn [LineBuffer.buffer].
  rewrite <- str_app_assoc. apply splitLines_terminated_text.
Qed.

(** X4. The pool of line buffers never grows past the bound: through any
    sequence of acquisitions and releases, under bounds that may change
    from call to call but stay at most [bound], a pool that held at most
    [bound] buffers still does. *)
Theorem line_pool_stays_bounded
  (ops : list Pools.poolOp) (bound : Z) (pool : Pools.linePool) :
  Forall (Pools.boundedBy bound) ops ->
  (Z.of_nat (List.length pool) <= bound)%Z ->
  (Z.of_nat (List.length (Pools.run ops pool)) <= bound)%Z.
Proof. apply run_bounded. Qed.

Lemma line_pool_stays_bounded_witness :
  (Z.of_nat (List.length
     (Pools.run [Pools.Release 1 (LineBuffer.mk "x" []);
                 Pools.Release 1 (LineBuffer.mk "y" []);
                 Pools.Acquire;
                 Pools.Release 0 LineBuffer.new]
                [])) <= 1)%Z.
Proof.
  apply (line_pool_stays_bounded _ 1 []); [|cbn; lia].
  repeat constructor; cbn; lia.
Defined.

(** ** What a run of the decoder may change *)

Section DecoderEffects.
Import JsString Js StreamParser Effects.
Context {host : Host}.

Lemma advances_refl (P : event -> bool) (w : world) : advances P w w.
Proof.
  unfold advances. repeat split; auto.
  - exists []. rewrite app_nil_r. split; [reflexivity | constructor].
  - exists []. rewrite app_nil_r. split; [reflexivity | constructor].
Qed.

Lemma advances_trans (P : event -> bool) (w1 w2 w3 : world) :
  advances P w1 w2 -> advances P w2 w3 -> advances P w1 w3.
Proof.
  intros ((e1 & E1 & F1) & (c1 & C1 & G1) & I1 & S1 & M1 & R1 & L1)
         ((e2 & E2 & F2) & (c2 & C2 & G2) & I2 & S2 & M2 & R2 & L2).
  unfold advances. split; [|split; [|split; [|split; [|split; [|split]]]]].
  - exists (e1 ++ e2). rewrite E2, E1, app_assoc. split; [reflexivity|].
    apply Forall_app. now split.
  - exists (c1 ++ c2). rewrite C2, C1, app_assoc. split; [reflexivity|].
    apply Forall_app. now split.
  - lia.
  - congruence.
  - congruence.
  - destruct R2 as [R2 | R2]; [|now right].
    destruct R1 as [R1 | R1]; [left; congruence | right; now rewrite R2].
  - lia.
Qed.

Lemma advances_weaken (P Q : event -> bool) (w w' : world) :
  (forall e, P e = true -> Q e = true) -> advances P w w' -> advances Q w w'.
Proof.
  intros PQ ((e & E & F) & rest). split; [|exact rest].
  exists e. split; [exact E|]. eapply Forall_impl; [|exact F]. exact PQ.
Qed.

Lemma advancing_ret {A} (P : event -> bool) (a : A) : advancing P (ret a).
Proof. intros w. apply advances_refl. Qed.

Lemma advancing_throw {A} (P : event -> bool) : advancing P (@throw A).
Proof. intros w. apply advances_refl. Qed.

Lemma advancing_bind {A B} (P : event -> bool) (m : M A) (k : A -> M B) :
  advancing P m -> (forall a, advancing P (k a)) -> advancing P (bind m k).
Proof.
  intros Hm Hk w. unfold bind. specialize (Hm w).
  destruct (m w) as [[a|] w1]; cbn [snd] in *; [|exact Hm].
  eapply advances_trans; [exact Hm | apply Hk].
Qed.

Lemma advancing_getM (P : event -> bool) (v : value) (k : string) :
  advancing P (getM v k).
Proof.
  unfold getM. destruct (get v k); [apply advancing_ret | apply advancing_throw].
Qed.

Lemma advancing_getState (P : event -> bool) : advancing P getState.
Proof. intros w. apply advances_refl. Qed.

Lemma advancing_callback (P : event -> bool) (e : event) :
  P e = true -> advancing P (callback e).
Proof.
  intros He w. unfold advances. cbn. repeat split; auto.
  - exists [e]. split; [reflexivity | now constructor].
  - exists []. rewrite app_nil_r. split; [reflexivity | constructor].
Qed.

Lemma advancing_cacheSignature (P : event -> bool) (key sig : value) :
  validSignature sig = true -> advancing P (cacheSignature key sig).
Proof.
  intros V w. unfold advances. cbn. repeat split; auto.
  - exists []. rewrite app_nil_r. split; [reflexivity | constructor].
  - exists [(key, sig)]. split; [reflexivity | now constructor].
Qed.

Lemma advancing_setReasoningSignature (P : event -> bool) (sig : value) :
  validSignature sig = true -> advancing P (setReasoningSignature sig).
Proof.
  intros V w. unfold advances. cbn. repeat split; auto.
  - exists []. rewrite app_nil_r. split; [reflexivity | constructor].
  - exists []. rewrite app_nil_r. split; [reflexivity | constructor].
Qed.

Lemma advancing_setToolCalls (P : event -> bool) (tcs : list toolCall) :
  advancing P (setToolCalls tcs).
Proof.
  intros w. unfold advances. cbn. repeat split; auto.
  - exists []. rewrite app_nil_r. split; [reflexivity | constructor].
  - exists []. rewrite app_nil_r. split; [reflexivity | constructor].
Qed.

Lemma advancing_getToolCallObject (P : event -> bool) :
  advancing P getToolCallObject.
Proof.
  intros w. unfold getToolCallObject.
  destruct (toolCallPool w) as [|tc pool] eqn:E; cbn [snd];
    [apply advances_refl|].
  unfold advances. cbn. rewrite E. cbn. repeat split; auto.
  - exists []. rewrite app_nil_r. split; [reflexivity | constructor].
  - exists []. rewrite app_nil_r. split; [reflexivity | constructor].
Qed.

Lemma advancing_freshToolCallId (P : event -> bool) :
  advancing P freshToolCallId.
Proof.
  intros w. unfold advances. cbn. repeat split; auto.
  - exists []. rewrite app_nil_r. split; [reflexivity | constructor].
  - exists []. rewrite app_nil_r. split; [reflexivity | constructor].
Qed.

Lemma advancing_forEach {A} (P : event -> bool) (body : A -> M unit)
      (items : list A) :
  (forall x, advancing P (body x)) -> advancing P (forEach body items).
Proof.
  intros Hb. induction items as [|x items IH]; cbn [forEach].
  - apply advancing_ret.
  - apply advancing_bind; [apply Hb | intros _; exact IH].
Qed.

Lemma advancing_tryCatch (P : event -> bool) (m : M unit) :
  advancing P m -> advancing P (tryCatch m).
Proof.
  intros Hm w. unfold tryCatch. specialize (Hm w).
  destruct (m w) as [[a|] w1]; exact Hm.
Qed.

Ltac advance :=
  repeat first
    [ apply advancing_ret
    | apply advancing_throw
    | apply advancing_getM
    | apply advancing_getState
    | apply advancing_getToolCallObject
    | apply advancing_freshToolCallId
    | apply advancing_setToolCalls
    | apply advancing_callback; reflexivity
    | apply advancing_cacheSignature; assumption
    | apply advancing_setReasoningSignature; assumption
    | apply advancing_bind; [|intro]
    | match goal with
      | |- advancing _ (when ?b _) => unfold when; destruct b eqn:?
      | |- advancing _ (if ?b then _ else _) => destruct b eqn:?
      | |- advancing _ (match ?x with _ => _ end) => destruct x
      end ].

Lemma advancing_convertToToolCall (P : event -> bool)
      (functionCall sid mdl : value) :
  advancing P (convertToToolCall functionCall sid mdl).
Proof. unfold convertToToolCall. advance. Qed.

(** One part: at most deltas are emitted. *)
Lemma advancing_handlePart (part : value) : advancing isDelta (handlePart part).
Proof.
  unfold handlePart.
  apply advancing_bind; [apply advancing_getM | intros thought].
  destruct thought as [| |[|]| | | |];
    try (apply advancing_bind; [apply advancing_getM | intros text];
         destruct text;
         try (apply advancing_callback; reflexivity);
         apply advancing_bind; [apply advancing_getM | intros fc];
         destruct (truthy fc); [|apply advancing_ret];
         apply advancing_bind; [apply advancing_getState | intros cur];
         apply advancing_bind; [apply advancing_convertToToolCall | intros tc];
         apply advancing_bind; [apply advancing_getM | intros sig];
         apply advancing_bind;
         [ destruct (validSignature sig) eqn:V; advance
         | intros tc'; advance ]).
  apply advancing_bind; [apply advancing_getM | intros sig].
  apply advancing_bind; [unfold when; destruct (validSignature sig) eqn:V; advance|].
  intros _. advance.
Qed.

Lemma advancing_emitParts (response : value) :
  advancing isDelta (emitParts response).
Proof.
  unfold emitParts. destruct (truthy (partsOf response)); [|apply advancing_ret].
  destruct (iterate (partsOf response)); [|apply advancing_throw].
  apply advancing_forEach. apply advancing_handlePart.
Qed.

Lemma advancing_finishTurn (response : value) :
  advancing anyEvent (finishTurn response).
Proof. unfold finishTurn. advance. Qed.

Lemma advancing_parseAndEmitStreamChunk (line : string) :
  advancing anyEvent (parseAndEmitStreamChunk line).
Proof.
  unfold parseAndEmitStreamChunk.
  destruct (negb (startsWith line DATA_PREFIX)); [apply advancing_ret|].
  apply advancing_tryCatch.
  destruct (JSON_parse (payload line)) as [data|]; [|apply advancing_throw].
  unfold processRecord.
  apply advancing_bind; [apply advancing_getM | intros response].
  apply advancing_bind.
  - intros w. eapply advances_weaken; [|apply advancing_emitParts]. reflexivity.
  - intros _. unfold when. destruct (truthy (finishReasonOf response));
      [apply advancing_finishTurn | apply advancing_ret].
Qed.

Lemma advancing_parseLines (lines : list string) :
  advancing anyEvent (parseLines lines).
Proof. apply advancing_forEach. apply advancing_parseAndEmitStreamChunk. Qed.

(** The events of one line: deltas, then what closes the turn. *)
Lemma line_events (line : string) (w : world) :
  exists deltas tail,
    emitted (snd (parseAndEmitStreamChunk line w)) = emitted w ++ deltas ++ tail
    /\ Forall (fun e => isDelta e = true) deltas
    /\ closingEvents tail
    /\ ((forall data, JSON_parse (payload line) = Some data ->
                      truthy (finishReasonOf (getOpt data "response")) = false) ->
        tail = []).
Proof.
  assert (Nothing : exists deltas tail,
             emitted w = emitted w ++ deltas ++ tail
             /\ Forall (fun e => isDelta e = true) deltas
             /\ closingEvents tail
             /\ ((forall data, JSON_parse (payload line) = Some data ->
                               truthy (finishReasonOf (getOpt data "response")) = false) ->
                 tail = [])).
  { exists [], []. rewrite app_nil_r. repeat split; auto. now left. }
  unfold parseAndEmitStreamChunk, tryCatch.
  destruct (negb (startsWith line DATA_PREFIX)); [exact Nothing|].
  destruct (JSON_parse (payload line)) as [data|] eqn:Hparse; [|exact Nothing].
  unfold processRecord, bind at 1, getM.
  destruct (get data "response") as [response|] eqn:Hresp; [|exact Nothing].
  assert (Hopt : getOpt data "response" = response)
    by (unfold getOpt; now rewrite Hresp).
  cbn [ret]. unfold bind.
  destruct (advancing_emitParts response w) as ((deltas & Em & Fd) & _).
  destruct (emitParts response w) as [[[]|] w1]; cbn [snd] in Em.
  2:{ exists deltas, []. rewrite app_nil_r. repeat split; auto. now left. }
  unfold when. destruct (truthy (finishReasonOf response)) eqn:Hfin.
  2:{ exists deltas, []. rewrite app_nil_r. cbn [ret snd].
      repeat split; auto. now left. }
  destruct (finishTurn_spec response w1) as (w2 & E & Em2 & _).
  rewrite E. cbn [snd]. exists deltas, (batchEvents w1 ++ usageEvents response).
  split; [rewrite Em2, Em, <- app_assoc; reflexivity|]. split; [exact Fd|]. split.
  - unfold batchEvents, usageEvents, usageEvent, closingEvents.
    destruct (toolCalls (st w1)) as [|tc tcs];
      destruct (truthy (getOpt response "usageMetadata")); cbn.
    + right. right. left. do 3 eexists. reflexivity.
    + now left.
    + right. right. right. do 4 eexists. split; [|reflexivity]. discriminate.
    + right. left. eexists. split; [|reflexivity]. discriminate.
  - intros H. specialize (H data eq_refl). rewrite Hopt in H. congruence.
Qed.

Lemma text_branch {A} (v : value) (a b : A) :
  v <> VUndefined ->
  match v with VUndefined => a | _ => b end = b.
Proof. destruct v; intros H; try reflexivity. now elim H. Qed.

Lemma forEach_stops_at_null (pre post : list value) (bad : value) (w : world) :
  get bad "thought" = None ->
  exists w1,
    forEach handlePart pre w = (Normal tt, w1) /\
    forEach handlePart (pre ++ bad :: post) w = (Thrown, w1)
    \/ forEach handlePart pre w = (Thrown, w1) /\
       forEach handlePart (pre ++ bad :: post) w = (Thrown, w1).
Proof.
  intros Hbad. rewrite forEach_app.
  destruct (forEach handlePart pre w) as [[[]|] w1] eqn:E; exists w1.
  - left. split; [reflexivity|]. unfold bind at 1. rewrite E.
    cbn [forEach]. unfold bind, handlePart, getM.
    rewrite Hbad. reflexivity.
  - right. split; [reflexivity|]. unfold bind at 1. rewrite E. reflexivity.
Qed.

End DecoderEffects.

(** X5. Chunking is transparent down to the events. Decoding a stream
    chunk by chunk (each chunk through [append], each returned line
    through [parseAndEmitStreamChunk]) leaves the decoder, the sink and
    the cache as one [append] of the whole text followed by the parsing
    of its lines does. *)
Theorem decode_is_independent_of_chunking
  {host : StreamParser.Host} (chunks : list string) :
  forall (lb : LineBuffer.t) (w : StreamParser.world),
    LineBuffer.noLF (LineBuffer.buffer lb) ->
    snd (Decoder.decode lb chunks w)
    = snd (StreamParser.parseLines
             (fst (LineBuffer.append lb (LineBuffer.whole chunks))) w).
Proof.
  induction chunks as [|c cs IH]; intros lb w Hb.
  - cbn [Decoder.decode LineBuffer.whole fold_right].
    rewrite append_splitLines, str_app_nil_r, (splitLines_noLF _ Hb).
    reflexivity.
  - change (LineBuffer.whole (c :: cs))
      with (String.append c (LineBuffer.whole cs)).
    rewrite append_in_two.
    cbn [Decoder.decode].
    unfold StreamParser.parseLines in *. rewrite forEach_app.
    assert (H1 : LineBuffer.noLF (LineBuffer.buffer (snd (LineBuffer.append lb c))))
      by (rewrite append_splitLines; apply splitLines_tail_noLF).
    destruct (LineBuffer.append lb c) as [lines lb1]. cbn [fst snd] in *.
    unfold StreamParser.bind.
    pose proof (parseLines_normal lines w) as N.
    unfold StreamParser.parseLines in N.
    destruct (StreamParser.forEach StreamParser.parseAndEmitStreamChunk lines w)
      as [c1 w1].
    cbn in N. subst c1. apply (IH lb1 w1 H1).
Qed.

Lemma decode_is_independent_of_chunking_witness :
  let lf := String JsString.LF "" in
  StreamParser.emitted
    (snd (Decoder.decode (host := Sample.host) LineBuffer.new
            ["data: two"; "-calls"; lf; "data: three-thoughts"; lf]
            Sample.start))
  = StreamParser.emitted
      (snd (StreamParser.parseLines (host := Sample.host)
              ["data: two-calls"; "data: three-thoughts"] Sample.start)).
Proof.
  exact (f_equal StreamParser.emitted
           (decode_is_independent_of_chunking (host := Sample.host)
              ["data: two"; "-calls"; String JsString.LF "";
               "data: three-thoughts"; String JsString.LF ""]
              LineBuffer.new Sample.start eq_refl)).
Defined.

(** X6. Over any sequence of lines the decoder only adds events to those
    the sink has received, never changes the stream's [sessionId] or
    [model], and never puts an object back into the tool-call pool. *)
Theorem decoder_only_adds_events
  {host : StreamParser.Host} (lines : list string) (w : StreamParser.world) :
  let w' := snd (StreamParser.parseLines lines w) in
  (exists evs, StreamParser.emitted w' = StreamParser.emitted w ++ evs)
  /\ StreamParser.sessionId (StreamParser.st w')
     = StreamParser.sessionId (StreamParser.st w)
  /\ StreamParser.model (StreamParser.st w')
     = StreamParser.model (StreamParser.st w)
  /\ List.length (StreamParser.toolCallPool w')
     <= List.length (StreamParser.toolCallPool w).
Proof.
  destruct (advancing_parseLines lines w)
    as ((evs & E & _) & _ & _ & S & M & _ & L).
  cbv zeta. repeat split; try assumption. now exists evs.
Qed.

(** X7. Over any sequence of lines, every call the decoder makes to
    [cacheSignature] passes a signature that is truthy and whose length
    is at least [MIN_SIGNATURE_LENGTH]; earlier calls are not undone. *)
Theorem only_valid_signatures_are_cached
  {host : StreamParser.Host} (lines : list string) (w : StreamParser.world) :
  let w' := snd (StreamParser.parseLines lines w) in
  exists calls,
    StreamParser.cacheCalls w' = StreamParser.cacheCalls w ++ calls
    /\ Forall (fun kc => StreamParser.validSignature (snd kc) = true) calls.
Proof.
  destruct (advancing_parseLines lines w) as (_ & C & _). exact C.
Qed.

(** X8. Over any sequence of lines, the reasoning signature kept in the
    state is the one it was or a valid one: a token that fails the length
    test never replaces it, and nothing resets it. *)
Theorem reasoning_signature_stays_valid
  {host : StreamParser.Host} (lines : list string) (w : StreamParser.world) :
  let w' := snd (StreamParser.parseLines lines w) in
  StreamParser.reasoningSignature (StreamParser.st w')
  = StreamParser.reasoningSignature (StreamParser.st w)
  \/ StreamParser.validSignature
       (StreamParser.reasoningSignature (StreamParser.st w')) = true.
Proof.
  destruct (advancing_parseLines lines w) as (_ & _ & _ & _ & _ & R & _).
  exact R.
Qed.

(** X9. A part that has [text] and is not flagged as thought gives
    exactly one text event carrying the text as it is ([null] and the
    empty string included) and changes nothing else: a [functionCall] or
    a [thoughtSignature] on the same part is ignored. *)
Theorem text_part_emits_text_only
  {host : StreamParser.Host} (part : Js.value) (w : StreamParser.world) :
  Js.getOpt part "thought" <> Js.VBool true ->
  Js.getOpt part "text" <> Js.VUndefined ->
  StreamParser.handlePart part w
  = (StreamParser.Normal tt,
     StreamParser.withEvent (StreamParser.TextDelta (Js.getOpt part "text")) w).
Proof.
  intros Ht Hx.
  unfold StreamParser.handlePart, StreamParser.bind at 1.
  rewrite (getM_defined _ _ "thought" w Hx).
  rewrite (not_thought_branch _ _ _ Ht).
  unfold StreamParser.bind at 1. rewrite (getM_defined _ _ "text" w Hx).
  rewrite (text_branch _ _ _ Hx). reflexivity.
Qed.

Lemma text_part_emits_text_only_witness :
  let w' := snd (StreamParser.handlePart (host := MoreSamples.host)
                   MoreSamples.part_text_and_call Sample.start) in
  StreamParser.emitted w' = [StreamParser.TextDelta (Js.VStr "hello")]
  /\ StreamParser.toolCalls (StreamParser.st w') = []
  /\ StreamParser.cacheCalls w' = [].
Proof.
  rewrite (text_part_emits_text_only (host := MoreSamples.host)
             MoreSamples.part_text_and_call Sample.start);
    [repeat split | discriminate | discriminate].
Defined.

(** X10. A record whose [parts] is truthy but cannot be iterated (a
    number, [true], an object) is dropped whole: no event, no change of
    state, and its finish reason and usage counters are not acted on, so
    pending tool calls stay pending. *)
Theorem record_with_uniterable_parts_is_dropped
  {host : StreamParser.Host} (line : string) (data : Js.value)
  (w : StreamParser.world) :
  JsString.startsWith line StreamParser.DATA_PREFIX = true ->
  StreamParser.JSON_parse (StreamParser.payload line) = Some data ->
  Js.truthy (StreamParser.partsOf (Js.getOpt data "response")) = true ->
  Js.iterate (StreamParser.partsOf (Js.getOpt data "response")) = None ->
  StreamParser.parseAndEmitStreamChunk line w = (StreamParser.Normal tt, w).
Proof.
  intros Hpre Hparse Htr Hit.
  assert (R : Js.get data "response" = Some (Js.getOpt data "response")).
  { apply (get_of_defined data "response"). intros U. rewrite U in Htr.
    discriminate. }
  unfold StreamParser.parseAndEmitStreamChunk, StreamParser.tryCatch.
  rewrite Hpre, Hparse. cbn [negb].
  unfold StreamParser.processRecord, StreamParser.bind, StreamParser.getM.
  rewrite R. cbn [StreamParser.ret]. unfold StreamParser.emitParts.
  rewrite Htr, Hit. reflexivity.
Qed.

Lemma record_with_uniterable_parts_is_dropped_witness :
  StreamParser.parseAndEmitStreamChunk (host := MoreSamples.host)
    "data: number-as-parts" Sample.start
  = (StreamParser.Normal tt, Sample.start).
Proof.
  apply (record_with_uniterable_parts_is_dropped (host := MoreSamples.host)
           "data: number-as-parts" MoreSamples.numberAsParts Sample.start);
    reflexivity.
Defined.

(** X11. A [null] among the parts ends the record there: the decoder is
    left as the parts before it left it, and neither the parts after it
    nor the finish reason and usage counters of the record are acted
    on. *)
Theorem null_part_ends_the_record
  {host : StreamParser.Host} (line : string) (data bad : Js.value)
  (pre post : list Js.value) (w : StreamParser.world) :
  JsString.startsWith line StreamParser.DATA_PREFIX = true ->
  StreamParser.JSON_parse (StreamParser.payload line) = Some data ->
  StreamParser.partsOf (Js.getOpt data "response") = Js.VArr (pre ++ bad :: post) ->
  Js.get bad "thought" = None ->
  snd (StreamParser.parseAndEmitStreamChunk line w)
  = snd (StreamParser.forEach StreamParser.handlePart pre w).
Proof.
  intros Hpre Hparse Hparts Hbad.
  unfold StreamParser.parseAndEmitStreamChunk, StreamParser.tryCatch.
  rewrite Hpre, Hparse. cbn [negb].
  unfold StreamParser.processRecord, StreamParser.bind at 1, StreamParser.getM.
  rewrite (response_of_parts _ _ Hparts). cbn [StreamParser.ret].
  unfold StreamParser.bind, StreamParser.emitParts.
  rewrite Hparts. cbn [Js.truthy Js.iterate].
  destruct (forEach_stops_at_null pre post bad w Hbad)
    as (w1 & [[E1 E2] | [E1 E2]]); rewrite E2, E1; reflexivity.
Qed.

Lemma null_part_ends_the_record_witness :
  StreamParser.emitted
    (snd (StreamParser.parseAndEmitStreamChunk (host := MoreSamples.host)
            "data: null-in-parts" Sample.start))
  = [StreamParser.Reasoning (Js.VStr "a") Js.VNull].
Proof.
  rewrite (null_part_ends_the_record (host := MoreSamples.host)
             "data: null-in-parts" MoreSamples.nullInParts Js.VNull
             [Sample.part_thought "a" Js.VUndefined]
             [Sample.part_call "t1" "search"] Sample.start);
    reflexivity.
Defined.

(** X12. The events of one line are deltas (reasoning and text) followed
    by at most one non-empty tool-calls event and at most one usage
    event, in this order. *)
Theorem line_closes_a_turn_at_most_once
  {host : StreamParser.Host} (line : string) (w : StreamParser.world) :
  let w' := snd (StreamParser.parseAndEmitStreamChunk line w) in
  exists deltas tail,
    StreamParser.emittedSince w w' = deltas ++ tail
    /\ Forall (fun e => Effects.isDelta e = true) deltas
    /\ Effects.closingEvents tail.
Proof.
  destruct (line_events line w) as (deltas & tail & E & F & C & _).
  exists deltas, tail. split; [|split; assumption].
  now apply emittedSince_app.
Qed.

(** X13. A record without finish reason gives deltas only: no tool-calls
    event and no usage event, whatever usage counters it carries. *)
Theorem no_summary_without_finish_reason
  {host : StreamParser.Host} (line : string) (w : StreamParser.world) :
  (forall data,
      StreamParser.JSON_parse (StreamParser.payload line) = Some data ->
      Js.truthy (StreamParser.finishReasonOf (Js.getOpt data "response")) = false) ->
  let w' := snd (StreamParser.parseAndEmitStreamChunk line w) in
  Forall (fun e => Effects.isDelta e = true) (StreamParser.emittedSince w w').
Proof.
  intros H. destruct (line_events line w) as (deltas & tail & E & F & _ & T).
  rewrite (T H), app_nil_r in E. cbv zeta.
  now rewrite (emittedSince_app _ _ _ E).
Qed.

Lemma no_summary_without_finish_reason_witness :
  StreamParser.emittedSince Sample.start
    (snd (StreamParser.parseAndEmitStreamChunk (host := MoreSamples.host)
            "data: text-only" Sample.start))
  = [StreamParser.TextDelta (Js.VStr "hi")]
  /\ Forall (fun e => Effects.isDelta e = true)
       (StreamParser.emittedSince Sample.start
          (snd (StreamParser.parseAndEmitStreamChunk (host := MoreSamples.host)
                  "data: text-only" Sample.start))).
Proof.
  split; [reflexivity|].
  apply (no_summary_without_finish_reason (host := MoreSamples.host)
           "data: text-only" Sample.start).
  intros data Hdata. vm_compute in Hdata. injection Hdata as <-. reflexivity.
Defined.

(** X14. A tool-call object taken from the pool keeps its
    [thoughtSignature]: after [releaseToolCallObject(obj)] found room in
    the pool, the tool call accumulated for the next invocation part
    that has no valid signature of its own carries the signature of
    [obj]. *)
Theorem pooled_signature_survives_reuse
  {host : StreamParser.Host} (maxSize : Z) (obj : StreamParser.toolCall)
  (part : Js.value) (w : StreamParser.world) :
  (Z.of_nat (List.length (StreamParser.toolCallPool w)) < maxSize)%Z ->
  StreamParser.invocationPart part ->
  StreamParser.validSignature (Js.getOpt part "thoughtSignature") = false ->
  let w1 := snd (Pools.releaseToolCallObject maxSize obj w) in
  let w2 := snd (StreamParser.handlePart part w1) in
  exists tc,
    StreamParser.toolCalls (StreamParser.st w2)
    = StreamParser.toolCalls (StreamParser.st w) ++ [tc]
    /\ StreamParser.tc_thoughtSignature tc = StreamParser.tc_thoughtSignature obj.
Proof.
  intros Hroom Hinv V w1 w2.
  assert (E1 : w1 = StreamParser.mkWorld (StreamParser.st w)
                      (obj :: StreamParser.toolCallPool w) (StreamParser.idsIssued w)
                      (StreamParser.cacheCalls w) (StreamParser.emitted w)).
  { subst w1. unfold Pools.releaseToolCallObject. cbn [snd].
    apply Z.ltb_lt in Hroom. now rewrite Hroom. }
  destruct (handlePart_invocation part w1 Hinv)
    as (tc & w2' & E & _ & Htc & _ & _ & _ & _ & Hsig).
  cbv zeta in Hsig. rewrite V in Hsig. destruct Hsig as [Hs _].
  exists tc. subst w2. rewrite E. cbn [snd]. rewrite Htc, Hs, E1. split; reflexivity.
Qed.

Lemma pooled_signature_survives_reuse_witness :
  let w1 := snd (Pools.releaseToolCallObject 4 MoreSamples.usedToolCall Sample.start) in
  let w2 := snd (StreamParser.handlePart (host := MoreSamples.host)
                   MoreSamples.part_bare_call w1) in
  exists tc,
    StreamParser.toolCalls (StreamParser.st w2) = [tc]
    /\ StreamParser.tc_thoughtSignature tc = Js.VStr "signature-0".
Proof.
  apply (pooled_signature_survives_reuse (host := MoreSamples.host) 4
           MoreSamples.usedToolCall MoreSamples.part_bare_call Sample.start);
    [reflexivity | | reflexivity].
  split; [discriminate | split; reflexivity].
Defined.

(** ** The converter: model detection, roles, system instruction, limits *)

Section ConverterMore.
Import ClaudeConverter ClaudeRequest Names.

Lemma roles_filtered {imports : Imports} (h h' : heap) (cs cs' : list googleContent) :
  Forall2 (filteredFrom h h') cs cs' -> map gc_role cs' = map gc_role cs.
Proof.
  induction 1 as [|c c' cs cs' (Hr & _) _ IH]; cbn; [reflexivity|].
  now rewrite Hr, IH.
Qed.

Lemma substring_length_le (n : nat) (s : string) :
  String.length (substring 0 n s) <= n.
Proof.
  revert s. induction n as [|n IH]; intros [|c s]; cbn; try lia.
  specialize (IH s). lia.
Qed.

Lemma substring_whole (n : nat) (s : string) :
  String.length s <= n -> substring 0 n s = s.
Proof.
  revert s. induction n as [|n IH]; intros [|c s]; cbn; intros H;
    try reflexivity; try lia.
  rewrite IH; [reflexivity | lia].
Qed.

Lemma allNameChars_substring (n : nat) (s : string) :
  allNameChars s = true -> allNameChars (substring 0 n s) = true.
Proof.
  revert s. induction n as [|n IH]; intros [|c s]; cbn; intros H;
    try reflexivity.
  apply andb_true_iff in H. destruct H as [Hc Hs].
  now rewrite Hc, (IH s Hs).
Qed.

Lemma allNameChars_replaceOthers (s : string) :
  allNameChars (replaceOthers s) = true.
Proof.
  induction s as [|c s IH]; cbn; [reflexivity|]. rewrite IH.
  destruct (isNameChar c) eqn:E; [now rewrite E | reflexivity].
Qed.

Lemma replaceOthers_same (s : string) :
  allNameChars s = true -> replaceOthers s = s.
Proof.
  induction s as [|c s IH]; cbn; intros H; [reflexivity|].
  apply andb_true_iff in H. destruct H as [Hc Hs].
  now rewrite Hc, (IH Hs).
Qed.

Lemma firstChar_substring (n : nat) (s : string) :
  firstChar (substring 0 (S n) s) = firstChar s.
Proof. destruct s; reflexivity. Qed.

End ConverterMore.

(** X15. A model that is a thinking model belongs to a known family:
    [isThinkingModel] is true only for names in which [getModelFamily]
    finds ['claude'] or ['gemini'], so the two branches that set the
    thinking configuration (lines 228-256) cover every thinking model. *)
Theorem thinking_model_has_a_family (modelName : string) :
  ClaudeConverter.isThinkingModel modelName = true ->
  ClaudeConverter.getModelFamily modelName <> ClaudeConverter.Unknown.
Proof.
  unfold ClaudeConverter.isThinkingModel, ClaudeConverter.getModelFamily.
  cbv zeta.
  destruct (ClaudeConverter.includes (ClaudeConverter.toLowerCase modelName) "claude");
    [discriminate|].
  destruct (ClaudeConverter.includes (ClaudeConverter.toLowerCase modelName) "gemini");
    cbn; discriminate.
Qed.

Lemma thinking_model_has_a_family_witness :
  ClaudeConverter.getModelFamily "Gemini-3-Pro-High" <> ClaudeConverter.Unknown.
Proof. exact (thinking_model_has_a_family "Gemini-3-Pro-High" eq_refl). Defined.

(** X16. When the recovery step does not apply, the request has one entry
    per message, in the order of the messages, each with the converted
    role of its message: pruning and filtering never remove or merge an
    entry. *)
Theorem one_entry_per_message
  {imports : ClaudeConverter.Imports} (msgs : list ClaudeConverter.message)
  (modelName : string) (h : ClaudeConverter.heap) :
  ClaudeConverter.recoveryApplies modelName h msgs = false ->
  map ClaudeConverter.gc_role
      (fst (ClaudeConverter.generateClaudeRequestBody msgs modelName h))
  = map (fun m => ClaudeConverter.convertRole (ClaudeConverter.role m)) msgs.
Proof.
  intros HR.
  destruct (ClaudeConverter.isClaudeModel modelName) eqn:HC.
  - destruct (generate_claude_spec msgs modelName h HC)
      as (cs & h1 & cs' & h2 & E1 & E2 & _ & F).
    rewrite E2. cbn [fst]. rewrite (roles_filtered _ _ _ _ F).
    destruct (convertMessages_spec true false msgs h) as (cs0 & h0 & E0 & _ & _ & R).
    rewrite E0 in E1. injection E1 as <- <-. exact R.
  - rewrite (generate_other msgs modelName h HC).
    unfold ClaudeConverter.bind, ClaudeConverter.processedMessages. rewrite HR.
    unfold ClaudeConverter.ret.
    destruct (convertMessages_spec false (ClaudeConverter.isGeminiModel modelName) msgs h)
      as (cs0 & h0 & E0 & _ & _ & R).
    rewrite E0. exact R.
Qed.

Lemma one_entry_per_message_witness :
  map ClaudeConverter.gc_role
      (fst (ClaudeConverter.generateClaudeRequestBody
              (imports := SampleConversation.imports)
              [SampleConversation.userThinking; SampleConversation.assistantTurn]
              "claude-opus-4-5" SampleConversation.store))
  = ["user"; "model"].
Proof.
  exact (one_entry_per_message (imports := SampleConversation.imports)
           [SampleConversation.userThinking; SampleConversation.assistantTurn]
           "claude-opus-4-5" SampleConversation.store eq_refl).
Defined.

(** X17. For a target outside the Claude family every entry of the
    request has at least one part: an entry the loop would leave without
    parts gets the placeholder (lines 183-186), and nothing runs after
    the loop. *)
Theorem request_outside_claude_has_no_empty_entry
  {imports : ClaudeConverter.Imports} (msgs : list ClaudeConverter.message)
  (modelName : string) (h : ClaudeConverter.heap) :
  ClaudeConverter.isClaudeModel modelName = false ->
  let '(contents, h') :=
    ClaudeConverter.generateClaudeRequestBody msgs modelName h in
  length contents = length (ClaudeConverter.partsIn h' contents)
  /\ Forall (fun parts => parts <> []) (ClaudeConverter.partsIn h' contents).
Proof.
  intros HC. rewrite (generate_other msgs modelName h HC).
  unfold ClaudeConverter.bind.
  destruct (ClaudeConverter.processedMessages modelName msgs h) as [pm h0].
  pose proof (loop_contents_filled false (ClaudeConverter.isGeminiModel modelName) pm h0) as L.
  destruct (ClaudeConverter.convertMessages false _ pm h0) as [cs h1].
  split; [|exact L]. unfold ClaudeConverter.partsIn. now rewrite length_map.
Qed.

Lemma request_outside_claude_has_no_empty_entry_witness :
  let '(contents, h') :=
    ClaudeConverter.generateClaudeRequestBody
      (imports := SampleConversation.imports)
      [ClaudeConverter.mkMessage "assistant" (ClaudeConverter.BlockArray 1)]
      "gemini-2.5-flash" SampleConversation.store in
  length contents = length (ClaudeConverter.partsIn h' contents)
  /\ Forall (fun parts => parts <> []) (ClaudeConverter.partsIn h' contents).
Proof.
  exact (request_outside_claude_has_no_empty_entry
           (imports := SampleConversation.imports)
           [ClaudeConverter.mkMessage "assistant" (ClaudeConverter.BlockArray 1)]
           "gemini-2.5-flash" SampleConversation.store eq_refl).
Defined.

(** X18. The system instruction always has exactly one part when it is
    there. Without the hint it is the merged prompt (base instruction,
    blank line, caller's prompt), absent when that is empty; for a Claude
    thinking model with tools it is the merged prompt, a blank line and
    the hint, or the hint alone: the hint never becomes a part of its
    own. *)
Theorem system_instruction_is_one_part
  (baseSystem systemPrompt modelName : string) (toolCount : nat) :
  let merged := ClaudeRequest.mergedSystem baseSystem systemPrompt in
  ClaudeRequest.systemInstruction baseSystem systemPrompt modelName toolCount
  = if ClaudeConverter.isClaudeModel modelName
       && ClaudeConverter.isThinkingModel modelName && (0 <? toolCount)%nat
    then Some [if ClaudeRequest.nonEmpty merged
               then (merged ++ ClaudeRequest.blankLine ++ ClaudeRequest.hint)%string
               else ClaudeRequest.hint]
    else if ClaudeRequest.nonEmpty merged then Some [merged] else None.
Proof.
  unfold ClaudeRequest.systemInstruction. cbv zeta.
  destruct (ClaudeConverter.isClaudeModel modelName
            && ClaudeConverter.isThinkingModel modelName && (0 <? toolCount)%nat);
    [|reflexivity].
  destruct (ClaudeRequest.nonEmpty (ClaudeRequest.mergedSystem baseSystem systemPrompt))
    eqn:E; cbn; [now rewrite E | reflexivity].
Qed.

(** X19. For a Gemini model the output-token limit of the request, when
    it is a number, never exceeds [GEMINI_MAX_OUTPUT_TOKENS], whatever
    the client asked for and whatever the default is. *)
Theorem gemini_output_tokens_are_capped
  {limits : ClaudeRequest.Limits} (requested fallback : Js.value)
  (modelName : string) (n : Z) :
  ClaudeConverter.isGeminiModel modelName = true ->
  ClaudeRequest.maxOutputTokens requested fallback modelName = Js.VNum n ->
  (n <= ClaudeRequest.GEMINI_MAX_OUTPUT_TOKENS)%Z.
Proof.
  unfold ClaudeRequest.maxOutputTokens. intros -> H. cbv zeta in H. cbn [andb] in H.
  set (chosen := if Js.truthy requested then requested
                 else if Js.truthy fallback then fallback else Js.VUndefined) in *.
  destruct (ClaudeRequest.gtNum chosen ClaudeRequest.GEMINI_MAX_OUTPUT_TOKENS) eqn:G.
  - injection H as <-. lia.
  - rewrite H in G. unfold ClaudeRequest.gtNum in G. cbn in G.
    apply Z.ltb_ge in G. exact G.
Qed.

Lemma gemini_output_tokens_are_capped_witness :
  ClaudeRequest.maxOutputTokens (limits := UtilSamples.limits)
    (Js.VNum 0) (Js.VNum 100000) "gemini-2.5-pro" = Js.VNum 65535
  /\ (65535 <= ClaudeRequest.GEMINI_MAX_OUTPUT_TOKENS (Limits := UtilSamples.limits))%Z.
Proof.
  split; [reflexivity|].
  exact (gemini_output_tokens_are_capped (limits := UtilSamples.limits)
           (Js.VNum 0) (Js.VNum 100000) "gemini-2.5-pro" 65535 eq_refl eq_refl).
Defined.

(** X20. The name of a function declaration has at most 64 characters,
    all of them letters, digits, underscores or hyphens; a name that is
    already so is kept as it is. *)
Theorem declaration_name_is_safe (name : string) :
  String.length (ClaudeRequest.declarationName name) <= 64
  /\ Names.allNameChars (ClaudeRequest.declarationName name) = true
  /\ (Names.allNameChars name = true -> String.length name <= 64 ->
      ClaudeRequest.declarationName name = name).
Proof.
  unfold ClaudeRequest.declarationName. split; [apply substring_length_le|].
  split.
  - apply allNameChars_substring, allNameChars_replaceOthers.
  - intros Ha Hl. rewrite (replaceOthers_same _ Ha). now apply substring_whole.
Qed.

Lemma declaration_name_is_safe_witness :
  ClaudeRequest.declarationName "get_weather-v2" = "get_weather-v2"%string.
Proof.
  apply (proj2 (proj2 (declaration_name_is_safe "get_weather-v2")));
    [reflexivity | cbn; lia].
Defined.

(** ** The utilities: tool names, model mapping, system texts, the
    default address *)

Section UtilsMore.
Import Names Utils.

Lemma allNameChars_stripLeading (s : string) :
  allNameChars s = true -> allNameChars (stripLeading s) = true.
Proof.
  induction s as [|c s IH]; cbn; intros H; [reflexivity|].
  destruct (Ascii.eqb c underscore); [|exact H].
  apply andb_true_iff in H. now apply IH.
Qed.

Lemma allNameChars_stripTrailing (s : string) :
  allNameChars s = true -> allNameChars (stripTrailing s) = true.
Proof.
  induction s as [|c s IH]; cbn; intros H; [reflexivity|].
  apply andb_true_iff in H. destruct H as [Hc Hs]. specialize (IH Hs).
  destruct (stripTrailing s) as [|d r].
  - destruct (Ascii.eqb c underscore); cbn; [reflexivity | now rewrite Hc].
  - change (isNameChar c && allNameChars (String d r) = true).
    now rewrite Hc, IH.
Qed.

Lemma firstChar_stripLeading (s : string) :
  firstChar (stripLeading s) <> Some underscore.
Proof.
  induction s as [|c s IH]; cbn; [discriminate|].
  destruct (Ascii.eqb_spec c underscore) as [E|E]; [exact IH|].
  cbn. intros H. injection H as H. contradiction.
Qed.

Lemma firstChar_stripTrailing (s : string) :
  firstChar s <> Some underscore ->
  firstChar (stripTrailing s) <> Some underscore.
Proof.
  destruct s as [|c s]; cbn; intros H; [discriminate|].
  destruct (stripTrailing s); [|exact H].
  destruct (Ascii.eqb c underscore); [discriminate | exact H].
Qed.

Lemma lastChar_stripTrailing (s : string) :
  lastChar (stripTrailing s) <> Some underscore.
Proof.
  induction s as [|c s IH]; cbn; [discriminate|].
  destruct (stripTrailing s) as [|d r].
  - destruct (Ascii.eqb_spec c underscore) as [E|E]; cbn; [discriminate|].
    intros H. injection H as H. contradiction.
  - exact IH.
Qed.

Lemma stripLeading_same (s : string) :
  firstChar s <> Some underscore -> stripLeading s = s.
Proof.
  destruct s as [|c s]; cbn; intros H; [reflexivity|].
  destruct (Ascii.eqb_spec c underscore) as [E|E]; [|reflexivity].
  subst c. contradiction.
Qed.

Lemma stripTrailing_same (s : string) :
  lastChar s <> Some underscore -> stripTrailing s = s.
Proof.
  induction s as [|c s IH]; intros H; [reflexivity|].
  destruct s as [|d r].
  - cbn in *. destruct (Ascii.eqb_spec c underscore) as [E|E]; [|reflexivity].
    subst c. contradiction.
  - change (lastChar (String d r) <> Some underscore) in H.
    change (match stripTrailing (String d r) with
            | EmptyString =>
                if Ascii.eqb c underscore then EmptyString else String c ""
            | rest => String c rest
            end = String c (String d r)).
    now rewrite (IH H).
Qed.

Lemma length_stripLeading (s : string) :
  String.length (stripLeading s) <= String.length s.
Proof.
  induction s as [|c s IH]; cbn; [lia|].
  destruct (Ascii.eqb c underscore); cbn; lia.
Qed.

Lemma length_stripTrailing (s : string) :
  String.length (stripTrailing s) <= String.length s.
Proof.
  induction s as [|c s IH]; cbn; [lia|].
  destruct (stripTrailing s) as [|d r].
  - destruct (Ascii.eqb c underscore); cbn; lia.
  - cbn in *. lia.
Qed.

Lemma length_replaceOthers (s : string) :
  String.length (replaceOthers s) = String.length s.
Proof. induction s as [|c s IH]; cbn; [reflexivity | now rewrite IH]. Qed.

Lemma cleanedName_chars (s : string) : allNameChars (cleanedName s) = true.
Proof.
  apply allNameChars_stripTrailing, allNameChars_stripLeading,
    allNameChars_replaceOthers.
Qed.

Lemma cleanedName_first (s : string) :
  firstChar (cleanedName s) <> Some underscore.
Proof. apply firstChar_stripTrailing, firstChar_stripLeading. Qed.

Lemma cleanedName_length (s : string) :
  String.length (cleanedName s) <= String.length s.
Proof.
  unfold cleanedName.
  pose proof (length_stripTrailing (stripLeading (replaceOthers s))).
  pose proof (length_stripLeading (replaceOthers s)).
  pose proof (length_replaceOthers s). lia.
Qed.

(** The three ways [sanitizeToolName] ends. *)
Lemma sanitizeToolName_cases (s : string) :
  sanitizeToolName (Js.VStr s) = "tool"%string
  \/ (cleanedName s <> ""%string
      /\ 128 < String.length (cleanedName s)
      /\ sanitizeToolName (Js.VStr s) = substring 0 128 (cleanedName s))
  \/ (cleanedName s <> ""%string
      /\ String.length (cleanedName s) <= 128
      /\ sanitizeToolName (Js.VStr s) = cleanedName s).
Proof.
  unfold sanitizeToolName. fold (cleanedName s).
  destruct (s =? "")%string; [now left|]. cbv zeta.
  destruct (String.eqb_spec (cleanedName s) "") as [E|E]; [now left|].
  right. destruct (Nat.ltb_spec 128 (String.length (cleanedName s))) as [L|L].
  - left. now repeat split.
  - right. now repeat split.
Qed.

Lemma sanitizeToolName_same (s : string) :
  wellFormedName s -> sanitizeToolName (Js.VStr s) = s.
Proof.
  intros (Hne & Hc & Hf & Hl & Hlen).
  assert (C : cleanedName s = s).
  { unfold cleanedName. rewrite (replaceOthers_same s Hc).
    rewrite (stripLeading_same s Hf). now apply stripTrailing_same. }
  unfold sanitizeToolName. fold (cleanedName s). rewrite C. cbv zeta.
  destruct (String.eqb_spec s "") as [|_]; [contradiction|].
  destruct (Nat.ltb_spec 128 (String.length s)); [lia | reflexivity].
Qed.

Lemma tool_wellFormed : wellFormedName "tool".
Proof.
  repeat split; try discriminate; try reflexivity. cbn. lia.
Qed.

Lemma sanitizeToolName_short (s : string) :
  String.length s <= 128 -> wellFormedName (sanitizeToolName (Js.VStr s)).
Proof.
  intros Hs. pose proof (cleanedName_length s) as Hl.
  destruct (sanitizeToolName_cases s) as [T | [(_ & L & _) | (N & _ & E)]].
  - rewrite T. exact tool_wellFormed.
  - lia.
  - rewrite E. split; [exact N|]. split; [apply cleanedName_chars|].
    split; [apply cleanedName_first|].
    split; [apply lastChar_stripTrailing | lia].
Qed.

Lemma systemTexts_cut {config : Config} (before : list chatMessage)
      (message : chatMessage) (rest : list chatMessage) :
  chatRole message <> "system"%string ->
  systemTexts (before ++ message :: rest) = systemTexts before.
Proof.
  intros H. induction before as [|m before IH]; cbn.
  - destruct (String.eqb_spec (chatRole message) "system"); [contradiction|reflexivity].
  - destruct (chatRole m =? "system")%string; [|reflexivity].
    now rewrite IH.
Qed.

End UtilsMore.

(** X21. Whatever it is given, [sanitizeToolName] returns a name that is
    not empty, has at most 128 characters, all of them letters, digits,
    underscores or hyphens, and does not start with an underscore. *)
Theorem sanitized_name_is_usable (name : Js.value) :
  let cleaned := Utils.sanitizeToolName name in
  cleaned <> ""%string
  /\ String.length cleaned <= 128
  /\ Names.allNameChars cleaned = true
  /\ Names.firstChar cleaned <> Some Names.underscore.
Proof.
  cbv zeta.
  assert (T : "tool"%string <> ""%string
              /\ String.length "tool" <= 128
              /\ Names.allNameChars "tool" = true
              /\ Names.firstChar "tool" <> Some Names.underscore).
  { repeat split; try discriminate; try reflexivity. cbn. lia. }
  destruct name as [| | b | n | s | l | o]; try exact T.
  destruct (sanitizeToolName_cases s) as [E | [(N & L & E) | (N & L & E)]];
    rewrite E; [exact T | |].
  - destruct (Utils.cleanedName s) as [|c r] eqn:C; [contradiction|].
    split; [discriminate|]. split; [apply substring_length_le|].
    split; [apply allNameChars_substring; rewrite <- C; apply cleanedName_chars|].
    change (Names.firstChar (String c r) <> Some Names.underscore).
    rewrite <- C. apply cleanedName_first.
  - split; [exact N|]. split; [exact L|].
    split; [apply cleanedName_chars | apply cleanedName_first].
Qed.

(** X22. A name that is already well formed (not empty, at most 128
    characters of the class, no underscore at either end) is returned
    as it is. *)
Theorem well_formed_name_is_kept (name : string) :
  Utils.wellFormedName name -> Utils.sanitizeToolName (Js.VStr name) = name.
Proof. apply sanitizeToolName_same. Qed.

Lemma well_formed_name_is_kept_witness :
  Utils.sanitizeToolName (Js.VStr "read_file-2") = "read_file-2"%string.
Proof.
  apply (well_formed_name_is_kept "read_file-2").
  repeat split; try discriminate; try reflexivity. cbn. lia.
Defined.

(** X23. On a name of at most 128 characters [sanitizeToolName] is
    idempotent: its result is well formed, so a second pass changes
    nothing. (The cut to 128 characters comes after the underscores are
    trimmed, so for longer names the result may end with an
    underscore.) *)
Theorem sanitizing_twice_changes_nothing (name : string) :
  String.length name <= 128 ->
  Utils.sanitizeToolName (Js.VStr (Utils.sanitizeToolName (Js.VStr name)))
  = Utils.sanitizeToolName (Js.VStr name).
Proof. intros H. now apply sanitizeToolName_same, sanitizeToolName_short. Qed.

Lemma sanitizing_twice_changes_nothing_witness :
  Utils.sanitizeToolName (Js.VStr "__my tool!__") = "my_tool"%string
  /\ Utils.sanitizeToolName (Js.VStr (Utils.sanitizeToolName (Js.VStr "__my tool!__")))
     = Utils.sanitizeToolName (Js.VStr "__my tool!__").
Proof.
  split; [reflexivity|].
  apply (sanitizing_twice_changes_nothing "__my tool!__"). cbn. lia.
Defined.

(** X24. [modelMapping] is idempotent, and a name it changes is a name
    whose thinking flag ([isEnableThinking]) it flips: the mapped name
    enables thinking exactly when the given one does not. *)
Theorem model_mapping_flips_thinking (modelName : string) :
  Utils.modelMapping (Utils.modelMapping modelName) = Utils.modelMapping modelName
  /\ (Utils.modelMapping modelName <> modelName ->
      Utils.isEnableThinking (Utils.modelMapping modelName)
      = negb (Utils.isEnableThinking modelName)).
Proof.
  destruct (String.eqb_spec modelName "claude-sonnet-4-5-thinking") as [->|N1];
    [split; reflexivity|].
  destruct (String.eqb_spec modelName "claude-opus-4-5") as [->|N2];
    [split; reflexivity|].
  destruct (String.eqb_spec modelName "gemini-2.5-flash-thinking") as [->|N3];
    [split; reflexivity|].
  assert (E : Utils.modelMapping modelName = modelName).
  { unfold Utils.modelMapping.
    apply String.eqb_neq in N1, N2, N3. now rewrite N1, N2, N3. }
  rewrite !E. split; [reflexivity | intros H; now contradiction H].
Qed.

Lemma model_mapping_flips_thinking_witness :
  Utils.isEnableThinking (Utils.modelMapping "claude-opus-4-5")
  = negb (Utils.isEnableThinking "claude-opus-4-5").
Proof.
  apply (proj2 (model_mapping_flips_thinking "claude-opus-4-5")). discriminate.
Defined.

(** X25. [extractSystemInstruction] reads the system messages at the
    head of the conversation only: whatever follows the first message
    that is not a system message, system messages included, has no
    effect on the result. *)
Theorem system_texts_stop_at_first_other_message
  {config : Utils.Config} (before : list Utils.chatMessage)
  (message : Utils.chatMessage) (rest : list Utils.chatMessage) :
  Utils.chatRole message <> "system"%string ->
  Utils.extractSystemInstruction (before ++ message :: rest)
  = Utils.extractSystemInstruction before.
Proof.
  intros H. unfold Utils.extractSystemInstruction.
  now rewrite (systemTexts_cut before message rest H).
Qed.

Lemma system_texts_stop_at_first_other_message_witness :
  Utils.extractSystemInstruction (config := UtilSamples.config)
    [Utils.mkChat "system" (Utils.ContentString " be brief ");
     Utils.mkChat "user" (Utils.ContentString "hello");
     Utils.mkChat "system" (Utils.ContentString "ignored")]
  = Utils.extractSystemInstruction (config := UtilSamples.config)
      [Utils.mkChat "system" (Utils.ContentString " be brief ")].
Proof.
  apply (system_texts_stop_at_first_other_message (config := UtilSamples.config)
           [Utils.mkChat "system" (Utils.ContentString " be brief ")]
           (Utils.mkChat "user" (Utils.ContentString "hello"))
           [Utils.mkChat "system" (Utils.ContentString "ignored")]).
  discriminate.
Defined.

(** X26. [getDefaultIp] returns the loopback address or the address of a
    usable (IPv4, not internal) entry of the interface it looks at; and
    when there is a [WLAN] interface it never looks at [wlan2], also
    when [WLAN] has no usable entry. *)
Theorem default_ip_comes_from_one_interface (i : Utils.interfaces) :
  let consulted :=
    match Utils.WLAN i with
    | Some l => l
    | None => match Utils.wlan2 i with Some l => l | None => [] end
    end in
  (Utils.getDefaultIp i = Utils.loopback
   \/ exists inter, In inter consulted /\ Utils.usable inter = true
                    /\ Utils.getDefaultIp i = Utils.address inter)
  /\ (forall l other, Utils.WLAN i = Some l ->
        Utils.getDefaultIp (Utils.mkInterfaces (Some l) other) = Utils.getDefaultIp i).
Proof.
  cbv zeta. split.
  - unfold Utils.getDefaultIp, Utils.firstUsable.
    destruct (Utils.WLAN i) as [l|]; [|destruct (Utils.wlan2 i) as [l|]];
      try (now left);
      (destruct (find Utils.usable l) as [inter|] eqn:F; cbn; [right | now left];
       apply find_some in F; destruct F as [Hin Hu]; now exists inter).
  - intros l other E. unfold Utils.getDefaultIp. cbn. now rewrite E.
Qed.

Lemma default_ip_comes_from_one_interface_witness :
  Utils.getDefaultIp
    (Utils.mkInterfaces (Some [Utils.mkInterface "IPv6" false "fe80::1"])
                        (Some [Utils.mkInterface "IPv4" false "192.168.1.7"]))
  = Utils.getDefaultIp
      (Utils.mkInterfaces (Some [Utils.mkInterface "IPv6" false "fe80::1"]) None).
Proof.
  exact (proj2 (default_ip_comes_from_one_interface
                  (Utils.mkInterfaces
                     (Some [Utils.mkInterface "IPv6" false "fe80::1"]) None))
               [Utils.mkInterface "IPv6" false "fe80::1"]
               (Some [Utils.mkInterface "IPv4" false "192.168.1.7"])
               eq_refl).
Defined.
